(** * The todo_write tool (packages/core/src/tools/todo-write.ts)

    A shallow embedding of the session-scoped task list tool: the module
    state ([currentTodos], [mostRecentlyCompletedId]), the invocation
    ([execute], [generateTodoDisplay], [generateSummary]) and the tool
    ([validateToolParams], [getCurrentTodos], [clearTodos]).

    JavaScript strings are modelled by [string], holding the UTF-8 encoding
    of the text: concatenation, strict equality and the prefix, substring and
    line structure of well-formed text are then those of the byte strings.
    Module-level variables are threaded explicitly through a state monad.

    The module is embedded at three levels: on typed items (the interface
    [TodoItem]), on arrays and items as objects at addresses ([Refs], for
    what the copies share), and on values as they are at run time ([Any] for
    the validator, [Dyn] for [execute], where a step can throw). *)

From Stdlib Require Import String Ascii List Bool Arith ZArith Lia DecimalString.
From stdpp Require Import base numbers option list.
Import ListNotations.
Set Warnings "-register-all".
Open Scope list_scope.
Open Scope string_scope.
Open Scope nat_scope.

#[global] Instance string_eq_dec : EqDecision string := String.string_dec.

(** ** JavaScript strings *)

Module Js.

Definition chr (code : nat) : string := String (ascii_of_nat code) EmptyString.

(** Characters the source writes with escapes or quotes. *)
Definition LF : ascii := ascii_of_nat 10.        (* \n *)
Definition nl : string := chr 10.                (* \n *)
Definition ESC : string := chr 27.               (* \x1b *)
Definition dquote : string := chr 34.
Definition backslash : string := chr 92.

(** [String(n)] and template interpolation of a non-negative integer. *)
Definition ofNat (n : nat) : string := NilEmpty.string_of_uint (Nat.to_uint n).

(** *** String.prototype.trim

    ECMAScript strips WhiteSpace and LineTerminator code points:
    U+0009..U+000D, U+0020, U+00A0, U+1680, U+2000..U+200A, U+2028, U+2029,
    U+202F, U+205F, U+3000 and U+FEFF.  In UTF-8 these are the six ASCII
    bytes, the pair C2 A0, and a few three byte sequences. *)

Definition ws1 (a : ascii) : bool :=
  let a := nat_of_ascii a in
  ((9 <=? a) && (a <=? 13)) || (a =? 32).

Definition ws2 (a b : ascii) : bool :=
  (nat_of_ascii a =? 194) && (nat_of_ascii b =? 160).

Definition ws3 (a b c : ascii) : bool :=
  let a := nat_of_ascii a in
  let b := nat_of_ascii b in
  let c := nat_of_ascii c in
  ((a =? 225) && (b =? 154) && (c =? 128))                      (* U+1680 *)
  || ((a =? 226) && (b =? 128) &&
      (((128 <=? c) && (c <=? 138))                              (* U+2000..U+200A *)
       || (c =? 168) || (c =? 169) || (c =? 175)))              (* U+2028 U+2029 U+202F *)
  || ((a =? 226) && (b =? 129) && (c =? 159))                   (* U+205F *)
  || ((a =? 227) && (b =? 128) && (c =? 128))                   (* U+3000 *)
  || ((a =? 239) && (b =? 187) && (c =? 191)).                  (* U+FEFF *)

Fixpoint trimStart (s : string) : string :=
  match s with
  | EmptyString => EmptyString
  | String a r1 =>
      if ws1 a then trimStart r1
      else match r1 with
           | EmptyString => s
           | String b r2 =>
               if ws2 a b then trimStart r2
               else match r2 with
                    | EmptyString => s
                    | String c r3 => if ws3 a b c then trimStart r3 else s
                    end
           end
  end.

(** A string made of white space only. *)
Definition isBlank (s : string) : bool :=
  match trimStart s with EmptyString => true | _ => false end.

Fixpoint trimEnd (s : string) : string :=
  match s with
  | EmptyString => EmptyString
  | String a r => if isBlank s then EmptyString else String a (trimEnd r)
  end.

Definition trim (s : string) : string := trimEnd (trimStart s).

(** *** String.prototype.includes *)
Definition includes (s sub : string) : bool :=
  match index 0 sub s with Some _ => true | None => false end.

(** *** String.prototype.split on the line feed *)
Fixpoint lines (s : string) : list string :=
  match s with
  | EmptyString => [EmptyString]
  | String a r =>
      if Ascii.eqb a LF then EmptyString :: lines r
      else match lines r with
           | l :: ls => String a l :: ls
           | [] => [String a EmptyString]
           end
  end.

(** *** Array.prototype.join *)
Fixpoint join (sep : string) (l : list string) : string :=
  match l with
  | [] => EmptyString
  | [x] => x
  | x :: rest => x ++ sep ++ join sep rest
  end.

(** *** JSON.stringify on the values the tool serialises *)
Inductive Json :=
| JNull
| JBool (b : bool)
| JString (s : string)
| JArray (elements : list Json)
| JObject (members : list (string * Json)).

Definition hexDigit (n : nat) : string :=
  match n with
  | 10 => "a" | 11 => "b" | 12 => "c" | 13 => "d" | 14 => "e" | 15 => "f"
  | _ => ofNat n
  end.

(** QuoteJSONString, one character at a time. *)
Definition quoteChar (a : ascii) : string :=
  let n := nat_of_ascii a in
  if n =? 8 then backslash ++ "b"
  else if n =? 9 then backslash ++ "t"
  else if n =? 10 then backslash ++ "n"
  else if n =? 12 then backslash ++ "f"
  else if n =? 13 then backslash ++ "r"
  else if n =? 34 then backslash ++ dquote
  else if n =? 92 then backslash ++ backslash
  else if n <? 32 then backslash ++ "u00" ++ hexDigit (n / 16) ++ hexDigit (n mod 16)
  else String a EmptyString.

Fixpoint quoteBody (s : string) : string :=
  match s with
  | EmptyString => EmptyString
  | String a r => quoteChar a ++ quoteBody r
  end.

Definition quote (s : string) : string := dquote ++ quoteBody s ++ dquote.

Fixpoint stringify (j : Json) : string :=
  match j with
  | JNull => "null"
  | JBool true => "true"
  | JBool false => "false"
  | JString s => quote s
  | JArray elements => "[" ++ join "," (List.map stringify elements) ++ "]"
  | JObject members =>
      "{" ++ join "," (List.map (fun m => quote (fst m) ++ ":" ++ stringify (snd m)) members) ++ "}"
  end.

End Js.

(** ** Data model *)

(** [status: 'pending' | 'in_progress' | 'completed'] *)
Inductive Status := pending | in_progress | completed.

Definition Status_eqb (a b : Status) : bool :=
  match a, b with
  | pending, pending | in_progress, in_progress | completed, completed => true
  | _, _ => false
  end.

#[global] Instance Status_eq_dec : EqDecision Status.
Proof. solve_decision. Defined.

Definition statusName (s : Status) : string :=
  match s with
  | pending => "pending"
  | in_progress => "in_progress"
  | completed => "completed"
  end.

(** [interface TodoItem] *)
Record TodoItem := mkTodo {
  id : string;
  content : string;
  status : Status
}.

(** [interface TodoWriteParams] *)
Record TodoWriteParams := mkParams {
  todos : list TodoItem
}.

(** The two fields of [ToolResult] the tool fills in. *)
Record ToolResult := mkResult {
  llmContent : string;
  returnDisplay : string
}.

(** ** Module state

    [let currentTodos: TodoItem[] = []] and
    [let mostRecentlyCompletedId: string | null = null]. *)
Record ModuleState := mkState {
  currentTodos : list TodoItem;
  mostRecentlyCompletedId : option string
}.

Definition initialState : ModuleState :=
  {| currentTodos := []; mostRecentlyCompletedId := None |}.

(** Operations on the module state. *)
Definition M (A : Type) : Type := ModuleState -> A * ModuleState.

Definition ret {A} (a : A) : M A := fun st => (a, st).
Definition bind {A B} (m : M A) (k : A -> M B) : M B :=
  fun st => let (a, st') := m st in k a st'.
Definition getCurrent : M (list TodoItem) := fun st => (currentTodos st, st).
Definition getRecent : M (option string) := fun st => (mostRecentlyCompletedId st, st).
Definition setCurrent (l : list TodoItem) : M unit :=
  fun st => (tt, {| currentTodos := l; mostRecentlyCompletedId := mostRecentlyCompletedId st |}).
Definition setRecent (r : option string) : M unit :=
  fun st => (tt, {| currentTodos := currentTodos st; mostRecentlyCompletedId := r |}).

Notation "x <- m ;; k" := (bind m (fun x => k))
  (at level 100, m at next level, right associativity).
Notation "m ;;; k" := (bind m (fun _ => k))
  (at level 100, k at level 200, right associativity).

(** How a [try] block ends. *)
Inductive Completion (A : Type) :=
| Normal (value : A)
| Throw (errorMessage : string).
Arguments Normal {A} value.
Arguments Throw {A} errorMessage.

(** ** TodoWriteInvocation *)

(** The glyph literals of the display, byte for byte as todo-write.ts holds
    them: the header glyph is the ten bytes c3 b0 c5 b8 e2 80 9c e2 80 b9, a
    branch is three characters of seven or eight bytes each, the empty box
    is c3 a2 cb 9c and the checked box c3 a2 cb 9c e2 80 98, so that the
    empty box is a prefix of the checked one.  (The comments beside them
    speak of square boxes; these bytes are what a clipboard, box-drawing
    branches and ballot boxes become when their UTF-8 is read as
    Windows-1252.) *)
Definition header : string := "ðŸ“‹ Todo List".
Definition lastBranch : string := "â””â”€â”€".
Definition branch : string := "â”œâ”€â”€".
Definition emptyBox : string := "â˜".
Definition checkedBox : string := "â˜‘".

Definition emptyDisplay : string :=
  header ++ Js.nl ++ lastBranch ++ " No todos currently tracked.".

(** [todos.forEach((todo, index) => ...)] with the accumulator the callback
    updates passed along. *)
Fixpoint forEach {A B : Type} (callback : B -> A -> nat -> B)
    (l : list A) (index : nat) (acc : B) : B :=
  match l with
  | [] => acc
  | x :: rest => forEach callback rest (S index) (callback acc x index)
  end.

Definition statusIcon (s : Status) : string :=
  match s with
  | in_progress => emptyBox
  | completed => checkedBox
  | pending => emptyBox
  end.

(** [todo.id === mostRecentlyCompletedId], a string against [string | null]. *)
Definition isRecent (todoId : string) (recent : option string) : bool :=
  match recent with
  | Some r => String.eqb todoId r
  | None => false
  end.

(** The [content] variable of the loop body: the text with its styling. *)
Definition styledContent (recent : option string) (todo : TodoItem) : string :=
  match status todo with
  | in_progress => Js.ESC ++ "[34m" ++ content todo ++ Js.ESC ++ "[0m"
  | completed =>
      if isRecent (id todo) recent
      then Js.ESC ++ "[32m" ++ Js.ESC ++ "[9m" ++ content todo ++ Js.ESC ++ "[29m" ++ Js.ESC ++ "[0m"
      else Js.ESC ++ "[9m" ++ content todo ++ Js.ESC ++ "[29m" ++ Js.ESC ++ "[0m"
  | pending => content todo
  end.

Definition displayStep (recent : option string) (n : nat)
    (display : string) (todo : TodoItem) (index : nat) : string :=
  let isLast := index =? n - 1 in
  let prefix := if isLast then lastBranch else branch in
  display ++ prefix ++ " " ++ statusIcon (status todo) ++ " "
          ++ styledContent recent todo ++ Js.nl.

Definition generateTodoDisplay (params : TodoWriteParams) : M string :=
  recent <- getRecent ;;
  let todos := todos params in
  if length todos =? 0 then ret emptyDisplay
  else
    let display := header ++ Js.nl in
    let display := forEach (displayStep recent (length todos)) todos 0 display in
    ret (Js.trim display).

Definition generateSummary (params : TodoWriteParams) : string :=
  let todos := todos params in
  let totalTodos := length todos in
  let completedTodos := length (List.filter (fun t => Status_eqb (status t) completed) todos) in
  let inProgressTodos := length (List.filter (fun t => Status_eqb (status t) in_progress) todos) in
  let pendingTodos := length (List.filter (fun t => Status_eqb (status t) pending) todos) in
  Js.ofNat totalTodos ++ " total tasks: " ++ Js.ofNat completedTodos ++ " completed, "
    ++ Js.ofNat inProgressTodos ++ " in progress, " ++ Js.ofNat pendingTodos ++ " pending".

(** An item as [JSON.stringify] sees it when its object holds the keys in
    the order of the interface.  The order is the object's own, not the
    code's: [Dyn.objectJson] below serialises an object in whatever order it
    holds its keys. *)
Definition todoJson (t : TodoItem) : Js.Json :=
  Js.JObject [("id", Js.JString (id t)); ("content", Js.JString (content t));
              ("status", Js.JString (statusName (status t)))].

Definition successPayload (params : TodoWriteParams) (summary : string) : Js.Json :=
  Js.JObject [("success", Js.JBool true);
              ("message", Js.JString "Todo list updated successfully");
              ("todos", Js.JArray (List.map todoJson (todos params)));
              ("summary", Js.JString summary)].

Definition failurePayload (errorMessage : string) : Js.Json :=
  Js.JObject [("success", Js.JBool false);
              ("error", Js.JString ("Failed to update todos: " ++ errorMessage))].

(** The recency marker and the store update, lines 276-294 of [execute]. *)
Definition updateStore (params : TodoWriteParams) : M unit :=
  current <- getCurrent ;;
  let previouslyInProgress := List.find (fun t => Status_eqb (status t) in_progress) current in
  match previouslyInProgress with
  | Some previouslyInProgress =>
      let nowCompleted :=
        List.find (fun t => String.eqb (id t) (id previouslyInProgress)
                            && Status_eqb (status t) completed) (todos params) in
      match nowCompleted with
      | Some nowCompleted => setRecent (Some (id nowCompleted))
      | None => setRecent None
      end
  | None => setRecent None
  end ;;;
  setCurrent (todos params).

(** The body of the [try] block: none of its steps throws. *)
Definition tryBlock (params : TodoWriteParams) : M (Completion ToolResult) :=
  updateStore params ;;;
  todoDisplay <- generateTodoDisplay params ;;
  let summary := generateSummary params in
  ret (Normal {| llmContent := Js.stringify (successPayload params summary);
                 returnDisplay := todoDisplay |}).

Definition catchBlock (errorMessage : string) : ToolResult :=
  {| llmContent := Js.stringify (failurePayload errorMessage);
     returnDisplay := "Error updating todos: " ++ errorMessage |}.

Definition execute (params : TodoWriteParams) : M ToolResult :=
  completion <- tryBlock params ;;
  match completion with
  | Normal result => ret result
  | Throw errorMessage => ret (catchBlock errorMessage)
  end.

(** ** TodoWriteTool *)

(** [static getCurrentTodos()] *)
Definition getCurrentTodos : M (list TodoItem) :=
  current <- getCurrent ;;
  ret current.

(** [static clearTodos()] *)
Definition clearTodos : M unit := setCurrent [].

(** The values [validateToolParams] guards against.  Its parameter is typed
    [TodoWriteParams], but the checks it makes ([Array.isArray], [typeof],
    the status list) are those of a value that arrives as [any]. *)
Module Any.

Inductive Value :=
| Undefined
| Null
| Boolean (b : bool)
| Number (n : Z)
| Str (s : string).

#[global] Instance Value_eq_dec : EqDecision Value.
Proof. solve_decision. Defined.

(** An object with the three keys; a missing key reads [Undefined]. *)
Record TodoItem := mkTodo {
  id : Value;
  content : Value;
  status : Value
}.

Inductive Todos :=
| Array (items : list TodoItem)
| NotArray (v : Value).

Record TodoWriteParams := mkParams {
  todos : Todos
}.

(** [!v] *)
Definition not (v : Value) : bool :=
  match v with
  | Undefined | Null => true
  | Boolean b => negb b
  | Number n => Z.eqb n 0
  | Str s => String.eqb s EmptyString
  end.

(** [typeof v !== 'string'] *)
Definition notString (v : Value) : bool :=
  match v with Str _ => false | _ => true end.

(** [v.trim() === ''], evaluated on strings only. *)
Definition trimIsEmpty (v : Value) : bool :=
  match v with
  | Str s => String.eqb (Js.trim s) EmptyString
  | _ => false
  end.

(** [v === s] for a string literal [s]. *)
Definition isStr (v : Value) (s : string) : bool :=
  match v with Str s' => String.eqb s' s | _ => false end.

(** [new Set(ids).size] *)
Definition setSize (ids : list Value) : nat := length (remove_dups ids).

End Any.

Section Validation.

(** [SchemaValidator.validate(this.schema.parametersJsonSchema, params)]:
    an error text, or nothing.  It comes from utils/schemaValidator, outside
    this module, and stays a parameter. *)
Variable schemaValidate : Any.TodoWriteParams -> option string.

(** The messages, as the string and template literals build them. *)

Definition idMessage (i : nat) : string :=
  "Todo item at index " ++ Js.ofNat i ++ " must have a non-empty "
    ++ Js.dquote ++ "id" ++ Js.dquote ++ " string.".
Definition contentMessage (i : nat) : string :=
  "Todo item at index " ++ Js.ofNat i ++ " must have a non-empty "
    ++ Js.dquote ++ "content" ++ Js.dquote ++ " string.".
Definition statusMessage (i : nat) : string :=
  "Todo item at index " ++ Js.ofNat i ++ " must have a valid "
    ++ Js.dquote ++ "status" ++ Js.dquote ++ " (pending, in_progress, or completed).".
Definition emptyMessage : string :=
  "Parameter " ++ Js.dquote ++ "todos" ++ Js.dquote ++ " must be a non-empty array.".
Definition inProgressMessage : string :=
  "Only one task can be " ++ Js.dquote ++ "in_progress" ++ Js.dquote ++ " at a time.".
Definition uniqueMessage : string := "All todo IDs must be unique.".

(** The [for] loop over the items, from index [i] on. *)
Fixpoint validateItems (i : nat) (items : list Any.TodoItem) : option string :=
  match items with
  | [] => None
  | todo :: rest =>
      if Any.not (Any.id todo) || Any.notString (Any.id todo)
         || Any.trimIsEmpty (Any.id todo)
      then Some (idMessage i)
      else if Any.not (Any.content todo) || Any.notString (Any.content todo)
              || Any.trimIsEmpty (Any.content todo)
      then Some (contentMessage i)
      else if negb (existsb (Any.isStr (Any.status todo))
                      ["pending"; "in_progress"; "completed"])
      then Some (statusMessage i)
      else validateItems (S i) rest
  end.

Definition validateToolParams (params : Any.TodoWriteParams) : option string :=
  match schemaValidate params with
  | Some errors => Some errors
  | None =>
      match Any.todos params with
      | Any.NotArray _ => Some emptyMessage
      | Any.Array todos =>
          if length todos =? 0 then Some emptyMessage
          else
            match validateItems 0 todos with
            | Some message => Some message
            | None =>
                let inProgressTasks :=
                  List.filter (fun todo => Any.isStr (Any.status todo) "in_progress") todos in
                if 1 <? length inProgressTasks then Some inProgressMessage
                else
                  let ids := List.map Any.id todos in
                  if negb (length ids =? Any.setSize ids) then Some uniqueMessage
                  else None
            end
      end
  end.

(** A typed value as it is at run time. *)
Definition erase (t : TodoItem) : Any.TodoItem :=
  {| Any.id := Any.Str (id t);
     Any.content := Any.Str (content t);
     Any.status := Any.Str (statusName (status t)) |}.

Definition eraseParams (params : TodoWriteParams) : Any.TodoWriteParams :=
  {| Any.todos := Any.Array (List.map erase (todos params)) |}.

Inductive Outcome :=
| Rejected (violation : string)
| Executed (result : ToolResult).

(** Modelled from the spec: the invocation entry point of section 4.4 (the
    [build] then [execute] sequence of the tool base class in tools.ts,
    which is not among the sources).  It runs the validator; on rejection
    it returns the violation message verbatim and does not touch the
    session state; on acceptance it runs [execute]. *)
Definition invoke (params : TodoWriteParams) : M Outcome :=
  match validateToolParams (eraseParams params) with
  | Some violation => ret (Rejected violation)
  | None => result <- execute params ;; ret (Executed result)
  end.

End Validation.

(** Modelled from the spec: the schema layer, as far as the empty array goes
    ([SchemaValidator.validate] in utils/schemaValidator is not among the
    sources).  Section 3 has it reject an empty array before the domain
    checks run, which is the [minItems: 1] of line 57; the text is the one a
    JSON schema library words for a [minItems] violation. *)
Definition schemaMinItems (params : Any.TodoWriteParams) : option string :=
  match Any.todos params with
  | Any.Array [] => Some "params/todos must NOT have fewer than 1 items"
  | _ => None
  end.

(** ** The validator as section 4.1 of the specification words it *)

Inductive Violation :=
| NotNonEmptyArray
| IdError (index : nat)
| ContentError (index : nat)
| StatusError (index : nat)
| ManyInProgress
| DuplicateIds.

Definition violationMessage (v : Violation) : string :=
  match v with
  | NotNonEmptyArray => emptyMessage
  | IdError i => idMessage i
  | ContentError i => contentMessage i
  | StatusError i => statusMessage i
  | ManyInProgress => inProgressMessage
  | DuplicateIds => uniqueMessage
  end.

(** A field that is missing, not a string, empty or white space only. *)
Definition blankField (v : Any.Value) : bool :=
  match v with
  | Any.Str s => Js.isBlank s
  | _ => true
  end.

Definition validStatus (v : Any.Value) : bool :=
  match v with
  | Any.Str s => bool_decide (s = "pending" \/ s = "in_progress" \/ s = "completed")
  | _ => false
  end.

(** All the violations of one item, in the order id, content, status. *)
Definition violationsOfItem (i : nat) (todo : Any.TodoItem) : list Violation :=
  ((if blankField (Any.id todo) then [IdError i] else [])
   ++ (if blankField (Any.content todo) then [ContentError i] else [])
   ++ (if validStatus (Any.status todo) then [] else [StatusError i]))%list.

Fixpoint violationsOfItems (i : nat) (items : list Any.TodoItem) : list Violation :=
  match items with
  | [] => []
  | todo :: rest => (violationsOfItem i todo ++ violationsOfItems (S i) rest)%list
  end.

Fixpoint countInProgress (items : list Any.TodoItem) : nat :=
  match items with
  | [] => 0
  | todo :: rest =>
      (if bool_decide (Any.status todo = Any.Str "in_progress") then 1 else 0)
      + countInProgress rest
  end.

(** Every violation of a submission, in the fixed order of the checks. *)
Definition violations (params : Any.TodoWriteParams) : list Violation :=
  match Any.todos params with
  | Any.NotArray _ => [NotNonEmptyArray]
  | Any.Array items =>
      ((match items with [] => [NotNonEmptyArray] | _ => [] end)
       ++ violationsOfItems 0 items
       ++ (if bool_decide (1 < countInProgress items) then [ManyInProgress] else [])
       ++ (if bool_decide (NoDup (List.map Any.id items)) then [] else [DuplicateIds]))%list
  end.

(** ** The summary as section 4.3 words it: one pass, three tallies *)

Record SummaryCounts := mkCounts {
  total : nat;
  completedCount : nat;
  inProgressCount : nat;
  pendingCount : nat
}.

Definition tally (c : SummaryCounts) (t : TodoItem) : SummaryCounts :=
  match status t with
  | completed => mkCounts (S (total c)) (S (completedCount c)) (inProgressCount c) (pendingCount c)
  | in_progress => mkCounts (S (total c)) (completedCount c) (S (inProgressCount c)) (pendingCount c)
  | pending => mkCounts (S (total c)) (completedCount c) (inProgressCount c) (S (pendingCount c))
  end.

Definition renderSummaryCounts (l : list TodoItem) : SummaryCounts :=
  fold_left tally l (mkCounts 0 0 0 0).

Definition formatSummary (c : SummaryCounts) : string :=
  Js.ofNat (total c) ++ " total tasks: " ++ Js.ofNat (completedCount c) ++ " completed, "
    ++ Js.ofNat (inProgressCount c) ++ " in progress, " ++ Js.ofNat (pendingCount c) ++ " pending".

(** ** Arrays and items as objects

    The copies the store makes are spreads, [[...this.params.todos]] and
    [[...currentTodos]].  What a caller can still reach after them depends on
    which objects are shared, so here arrays and items live at addresses:
    an array holds the addresses of its items, and a spread allocates a new
    array holding the same addresses. *)
Module Refs.

(** Addresses. *)
Abbreviation loc := nat.

Record Heap := mkHeap {
  items : list TodoItem;        (* the item objects, by address *)
  arrays : list (list loc)      (* the array objects, by address *)
}.

(** The module variables: [currentTodos] now holds an array address. *)
Record Store := mkStore {
  currentTodos : loc;
  mostRecentlyCompletedId : option string
}.

(** The items an array holds at the moment. *)
Definition readArray (h : Heap) (a : loc) : option (list TodoItem) :=
  arrays h !! a ≫= mapM (fun r => items h !! r).

(** [[...a]]: a new array object with the elements of [a]. *)
Definition spread (h : Heap) (a : loc) : option (loc * Heap) :=
  refs ← arrays h !! a;
  Some (length (arrays h), {| items := items h; arrays := (arrays h ++ [refs])%list |}).

(** Lines 276-294 of [execute], with [paramsTodos] the address of
    [this.params.todos]. *)
Definition updateStore (paramsTodos : loc) (s : Store) (h : Heap)
    : option (Store * Heap) :=
  current ← readArray h (currentTodos s);
  candidate ← readArray h paramsTodos;
  let previouslyInProgress :=
    List.find (fun t => Status_eqb (status t) in_progress) current in
  let recent :=
    match previouslyInProgress with
    | Some previouslyInProgress =>
        let nowCompleted :=
          List.find (fun t => String.eqb (id t) (id previouslyInProgress)
                              && Status_eqb (status t) completed) candidate in
        match nowCompleted with
        | Some nowCompleted => Some (id nowCompleted)
        | None => None
        end
    | None => None
    end in
  '(copy, h') ← spread h paramsTodos;
  Some ({| currentTodos := copy; mostRecentlyCompletedId := recent |}, h').

(** [static getCurrentTodos()]: the address of the array it returns. *)
Definition getCurrentTodos (s : Store) (h : Heap) : option (loc * Heap) :=
  spread h (currentTodos s).

(** What a caller holding an array can do to it: any change of its
    elements ([a[i] = x], [push], [pop], [splice], [length = n]). *)
Definition writeArray (a : loc) (refs : list loc) (h : Heap) : Heap :=
  {| items := items h; arrays := <[a := refs]> (arrays h) |}.

(** What a caller holding an item can do to it: assign its fields. *)
Definition writeItem (r : loc) (t : TodoItem) (h : Heap) : Heap :=
  {| items := <[r := t]> (items h); arrays := arrays h |}.

(** The stored list as [execute] will next read it. *)
Definition stored (s : Store) (h : Heap) : option (list TodoItem) :=
  readArray h (currentTodos s).

(** [this.params.todos.filter(callback)]: a new array object with the
    elements kept. *)
Definition filterArray (keep : TodoItem -> bool) (h : Heap) (a : loc)
    : option (list loc * Heap) :=
  refs ← arrays h !! a;
  elements ← mapM (fun r => items h !! r) refs;
  let kept := List.map fst (List.filter (fun p => keep (snd p)) (combine refs elements)) in
  Some (kept, {| items := items h; arrays := (arrays h ++ [kept])%list |}).

(** [generateSummary]: its three [filter] calls each make an array. *)
Definition generateSummary (h : Heap) (paramsTodos : loc) : option (string * Heap) :=
  refs ← arrays h !! paramsTodos;
  let totalTodos := length refs in
  '(completedTodos, h1) ← filterArray (fun t => Status_eqb (status t) completed) h paramsTodos;
  '(inProgressTodos, h2) ← filterArray (fun t => Status_eqb (status t) in_progress) h1 paramsTodos;
  '(pendingTodos, h3) ← filterArray (fun t => Status_eqb (status t) pending) h2 paramsTodos;
  Some (Js.ofNat totalTodos ++ " total tasks: " ++ Js.ofNat (length completedTodos)
          ++ " completed, " ++ Js.ofNat (length inProgressTodos) ++ " in progress, "
          ++ Js.ofNat (length pendingTodos) ++ " pending",
        h3).

(** The whole of [execute] on typed items: the store update, the display
    (which only reads), the summary, the result. *)
Definition execute (paramsTodos : loc) (s : Store) (h : Heap)
    : option (ToolResult * Store * Heap) :=
  '(s', h1) ← updateStore paramsTodos s h;
  candidate ← readArray h1 paramsTodos;
  let todoDisplay :=
    fst (generateTodoDisplay (mkParams candidate)
           (mkState candidate (mostRecentlyCompletedId s'))) in
  '(summary, h2) ← generateSummary h1 paramsTodos;
  Some ({| llmContent := Js.stringify (successPayload (mkParams candidate) summary);
           returnDisplay := todoDisplay |},
        s', h2).

End Refs.

(** ** execute on values as they are at run time

    What can make a step of the [try] block throw is the shape of the values:
    [todos] that is no array, an element that is [null] or [undefined].
    Here [execute] runs on such values.  An object holds its own members in
    insertion order, any keys (none twice), with text values; a key it lacks
    reads [undefined].  (Members that are not text, and [todos] that is a string
    or an object other than an array, are left out.) *)
Module Dyn.

Definition Object := list (string * string).

Inductive Element :=
| Obj (o : Object)
| Nullish.                       (* null or undefined *)

Inductive Todos :=
| Arr (elements : list Element)
| NullishTodos                   (* null or undefined *)
| Scalar.                        (* a number or a boolean *)

(** [mostRecentlyCompletedId]: [null], or the [id] it was given, a text or
    [undefined]. *)
Inductive Marker :=
| MNull
| MValue (v : option string).

Record State := mkState {
  currentTodos : list Element;
  mostRecentlyCompletedId : Marker
}.

Inductive TypeError :=
| ReadOfNullish (key : string)   (* a property read on null or undefined *)
| NotAFunction (name : string)   (* a call of a property that is no function *)
| NotIterable.                   (* a spread of what cannot be iterated *)

(** [o[key]] *)
Fixpoint get (o : Object) (key : string) : option string :=
  match o with
  | [] => None
  | (k, v) :: rest => if String.eqb k key then Some v else get rest key
  end.

(** [a === b] on a text or [undefined]. *)
Definition same (a b : option string) : bool :=
  match a, b with
  | Some x, Some y => String.eqb x y
  | None, None => true
  | _, _ => false
  end.

(** [v === mostRecentlyCompletedId] *)
Definition isMarker (v : option string) (m : Marker) : bool :=
  match m with
  | MNull => false
  | MValue w => same v w
  end.

(** Template interpolation of a text or [undefined]. *)
Definition toString (v : option string) : string :=
  match v with
  | Some s => s
  | None => "undefined"
  end.

Definition objectJson (o : Object) : Js.Json :=
  Js.JObject (List.map (fun m => (fst m, Js.JString (snd m))) o).

Definition elementJson (e : Element) : Js.Json :=
  match e with
  | Obj o => objectJson o
  | Nullish => Js.JNull
  end.

Section Engine.

(** The message the engine gives a [TypeError]. *)
Variable typeErrorMessage : TypeError -> string.

Definition bindC {A B : Type} (c : Completion A) (k : A -> Completion B) : Completion B :=
  match c with
  | Normal a => k a
  | Throw e => Throw e
  end.

(** [e[key]] on an element. *)
Definition prop (e : Element) (key : string) : Completion (option string) :=
  match e with
  | Obj o => Normal (get o key)
  | Nullish => Throw (typeErrorMessage (ReadOfNullish key))
  end.

(** [Array.prototype.find], [filter] and [forEach] with a callback that may
    throw. *)
Fixpoint find (callback : Element -> Completion bool) (l : list Element)
    : Completion (option Element) :=
  match l with
  | [] => Normal None
  | x :: rest =>
      bindC (callback x) (fun found => if found then Normal (Some x) else find callback rest)
  end.

Fixpoint filter (callback : Element -> Completion bool) (l : list Element)
    : Completion (list Element) :=
  match l with
  | [] => Normal []
  | x :: rest =>
      bindC (callback x) (fun keep =>
      bindC (filter callback rest) (fun kept =>
      Normal (if keep then x :: kept else kept)))
  end.

Fixpoint forEach {B : Type} (callback : B -> Element -> nat -> Completion B)
    (l : list Element) (index : nat) (acc : B) : Completion B :=
  match l with
  | [] => Normal acc
  | x :: rest => bindC (callback acc x index) (forEach callback rest (S index))
  end.

(** [t => t.status === name] *)
Definition hasStatus (name : string) (t : Element) : Completion bool :=
  bindC (prop t "status") (fun s => Normal (same s (Some name))).

(** [t => t.id === previouslyInProgress.id && t.status === 'completed'] *)
Definition completesPrior (previouslyInProgress : Object) (t : Element) : Completion bool :=
  bindC (prop t "id") (fun i =>
  if same i (get previouslyInProgress "id") then hasStatus "completed" t
  else Normal false).

(** [this.params.todos.find(callback)] *)
Definition todosFind (todos : Todos) (callback : Element -> Completion bool)
    : Completion (option Element) :=
  match todos with
  | Arr l => find callback l
  | NullishTodos => Throw (typeErrorMessage (ReadOfNullish "find"))
  | Scalar => Throw (typeErrorMessage (NotAFunction "find"))
  end.

(** [[...this.params.todos]] *)
Definition spread (todos : Todos) : Completion (list Element) :=
  match todos with
  | Arr l => Normal l
  | _ => Throw (typeErrorMessage NotIterable)
  end.

(** Lines 276-294.  A throw leaves the state as the statements before it
    have made it. *)
Definition updateStore (todos : Todos) (st : State) : Completion unit * State :=
  match find (hasStatus "in_progress") (currentTodos st) with
  | Throw e => (Throw e, st)
  | Normal previouslyInProgress =>
      let marked : Completion unit * State :=
        match previouslyInProgress with
        | Some (Obj previouslyInProgress) =>
            match todosFind todos (completesPrior previouslyInProgress) with
            | Throw e => (Throw e, st)
            | Normal (Some (Obj nowCompleted)) =>
                (Normal tt, mkState (currentTodos st) (MValue (get nowCompleted "id")))
            | Normal _ => (Normal tt, mkState (currentTodos st) MNull)
            end
        | _ => (Normal tt, mkState (currentTodos st) MNull)
        end in
      match marked with
      | (Throw e, st1) => (Throw e, st1)
      | (Normal _, st1) =>
          match spread todos with
          | Throw e => (Throw e, st1)
          | Normal copy => (Normal tt, mkState copy (mostRecentlyCompletedId st1))
          end
      end
  end.

(** The callback of the [forEach] of [generateTodoDisplay]. *)
Definition displayStep (recent : Marker) (n : nat)
    (display : string) (todo : Element) (index : nat) : Completion string :=
  let isLast := index =? n - 1 in
  let prefix := if isLast then lastBranch else branch in
  bindC (prop todo "status") (fun status =>
  bindC (prop todo "content") (fun content =>
  bindC (prop todo "id") (fun id =>
  let statusIcon :=
    if same status (Some "in_progress") then emptyBox
    else if same status (Some "completed") then checkedBox
    else emptyBox in
  let content :=
    if same status (Some "in_progress")
    then Js.ESC ++ "[34m" ++ toString content ++ Js.ESC ++ "[0m"
    else if same status (Some "completed")
    then if isMarker id recent
         then Js.ESC ++ "[32m" ++ Js.ESC ++ "[9m" ++ toString content
                ++ Js.ESC ++ "[29m" ++ Js.ESC ++ "[0m"
         else Js.ESC ++ "[9m" ++ toString content ++ Js.ESC ++ "[29m" ++ Js.ESC ++ "[0m"
    else toString content in
  Normal (display ++ prefix ++ " " ++ statusIcon ++ " " ++ content ++ Js.nl)))).

Definition generateTodoDisplay (todos : Todos) (recent : Marker) : Completion string :=
  match todos with
  | Arr l =>
      if length l =? 0 then Normal emptyDisplay
      else bindC (forEach (displayStep recent (length l)) l 0 (header ++ Js.nl))
             (fun display => Normal (Js.trim display))
  | NullishTodos => Throw (typeErrorMessage (ReadOfNullish "length"))
  | Scalar => Throw (typeErrorMessage (NotAFunction "forEach"))
  end.

(** [this.params.todos.filter(callback).length] *)
Definition todosCount (todos : Todos) (callback : Element -> Completion bool)
    : Completion nat :=
  match todos with
  | Arr l => bindC (filter callback l) (fun kept => Normal (length kept))
  | NullishTodos => Throw (typeErrorMessage (ReadOfNullish "filter"))
  | Scalar => Throw (typeErrorMessage (NotAFunction "filter"))
  end.

Definition generateSummary (todos : Todos) : Completion string :=
  match todos with
  | Arr l =>
      let totalTodos := length l in
      bindC (todosCount todos (hasStatus "completed")) (fun completedTodos =>
      bindC (todosCount todos (hasStatus "in_progress")) (fun inProgressTodos =>
      bindC (todosCount todos (hasStatus "pending")) (fun pendingTodos =>
      Normal (Js.ofNat totalTodos ++ " total tasks: " ++ Js.ofNat completedTodos
                ++ " completed, " ++ Js.ofNat inProgressTodos ++ " in progress, "
                ++ Js.ofNat pendingTodos ++ " pending"))))
  | NullishTodos => Throw (typeErrorMessage (ReadOfNullish "length"))
  | Scalar => Throw (typeErrorMessage (NotAFunction "filter"))
  end.

(** The object handed to [JSON.stringify].  With [todos] that is no array
    the spread has thrown and this is not reached. *)
Definition successPayload (todos : Todos) (summary : string) : Js.Json :=
  Js.JObject [("success", Js.JBool true);
              ("message", Js.JString "Todo list updated successfully");
              ("todos", match todos with
                        | Arr l => Js.JArray (List.map elementJson l)
                        | _ => Js.JNull
                        end);
              ("summary", Js.JString summary)].

(** The [try] block. *)
Definition tryBlock (todos : Todos) (st : State) : Completion ToolResult * State :=
  match updateStore todos st with
  | (Throw e, st1) => (Throw e, st1)
  | (Normal _, st1) =>
      (bindC (generateTodoDisplay todos (mostRecentlyCompletedId st1)) (fun todoDisplay =>
       bindC (generateSummary todos) (fun summary =>
       Normal {| llmContent := Js.stringify (successPayload todos summary);
                 returnDisplay := todoDisplay |})),
       st1)
  end.

(** [execute]: the [catch] turns a throw into the failure result (what it
    writes to the console is not kept). *)
Definition execute (todos : Todos) (st : State) : ToolResult * State :=
  match tryBlock todos st with
  | (Normal result, st1) => (result, st1)
  | (Throw errorMessage, st1) => (catchBlock errorMessage, st1)
  end.

End Engine.

End Dyn.

(** A typed item and the objects that hold it: the three keys, each once,
    in any order. *)
Definition members (t : TodoItem) : Dyn.Object :=
  [("id", id t); ("content", content t); ("status", statusName (status t))].

Definition holds (o : Dyn.Object) (t : TodoItem) : Prop :=
  Permutation o (members t).

Definition markerOf (m : option string) : Dyn.Marker :=
  match m with
  | Some s => Dyn.MValue (Some s)
  | None => Dyn.MNull
  end.

Definition stateOf (stored : list Dyn.Object) (m : option string) : Dyn.State :=
  Dyn.mkState (List.map Dyn.Obj stored) (markerOf m).

(** ** Vocabulary of the statements *)

(** The item of a stored list that is in progress (the first, should an
    unvalidated list hold several). *)
Definition priorInProgress (stored : list TodoItem) : option TodoItem :=
  List.find (fun t => Status_eqb (status t) in_progress) stored.

(** The candidate completes the task [prior]. *)
Definition completes (candidate : list TodoItem) (prior : TodoItem) : Prop :=
  exists t, In t candidate /\ id t = id prior /\ status t = completed.

(** The state an [execute] call leaves behind. *)
Definition stateAfter (params : TodoWriteParams) (st : ModuleState) : ModuleState :=
  snd (execute params st).

(** The text has a line feed in it. *)
Fixpoint hasLineFeed (s : string) : bool :=
  match s with
  | EmptyString => false
  | String a r => Ascii.eqb a Js.LF || hasLineFeed r
  end.

(** Lines put back together, each closed by a line feed. *)
Fixpoint unlines (ls : list string) : string :=
  match ls with
  | [] => EmptyString
  | l :: rest => l ++ Js.nl ++ unlines rest
  end.

(** The line of the item at [index] in a list of [n] items. *)
Definition itemLine (recent : option string) (n index : nat) (todo : TodoItem) : string :=
  (if index =? n - 1 then lastBranch else branch) ++ " "
    ++ (match status todo with completed => checkedBox | _ => emptyBox end)
    ++ " " ++ styledContent recent todo.

Fixpoint itemLines (recent : option string) (n index : nat) (l : list TodoItem)
    : list string :=
  match l with
  | [] => []
  | todo :: rest => itemLine recent n index todo :: itemLines recent n (S index) rest
  end.

(** The bytes that occur in the encoding of some white space character. *)
Definition wsByte (a : ascii) : bool :=
  let n := nat_of_ascii a in
  ((9 <=? n) && (n <=? 13)) || (n =? 32)
  || ((128 <=? n) && (n <=? 138))
  || (n =? 154) || (n =? 159) || (n =? 160) || (n =? 168) || (n =? 169)
  || (n =? 175) || (n =? 187) || (n =? 191) || (n =? 194) || (n =? 225)
  || (n =? 226) || (n =? 227) || (n =? 239).

(** ** getDescription

    The accumulator of the [reduce] is an object used as a record of counts,
    [{} as Record<string, number>]: its keys in insertion order, a missing
    key read as [undefined]. *)
Definition CountRecord := list (string * nat).

(** [acc[key]] *)
Fixpoint recordGet (acc : CountRecord) (key : string) : option nat :=
  match acc with
  | [] => None
  | (k, v) :: rest => if String.eqb k key then Some v else recordGet rest key
  end.

(** [acc[key] = value] *)
Fixpoint recordSet (acc : CountRecord) (key : string) (value : nat) : CountRecord :=
  match acc with
  | [] => [(key, value)]
  | (k, v) :: rest =>
      if String.eqb k key then (k, value) :: rest
      else (k, v) :: recordSet rest key value
  end.

(** [n || 0] on a count that may be [undefined]. *)
Definition orZero (n : option nat) : nat :=
  match n with
  | Some v => v
  | None => 0
  end.

Definition countStep (acc : CountRecord) (todo : TodoItem) : CountRecord :=
  recordSet acc (statusName (status todo))
    (orZero (recordGet acc (statusName (status todo))) + 1).

Definition getDescription (params : TodoWriteParams) : string :=
  let todoCount := length (todos params) in
  let statusCounts := fold_left countStep (todos params) [] in
  let inProgress := orZero (recordGet statusCounts "in_progress") in
  let pending := orZero (recordGet statusCounts "pending") in
  let completed := orZero (recordGet statusCounts "completed") in
  "ðŸ“‹ Managing " ++ Js.ofNat todoCount ++ " tasks: " ++ Js.ofNat inProgress
    ++ " in progress, " ++ Js.ofNat pending ++ " pending, "
    ++ Js.ofNat completed ++ " completed".

(** ** More vocabulary *)

(** How many items of a list have a given status. *)
Definition countStatus (l : list TodoItem) (s : Status) : nat :=
  count_occ Status_eq_dec (List.map status l) s.

(** What the validator asks of a typed list: it is not empty, no id and no
    content is blank, at most one item is in progress, no id occurs twice. *)
Definition wellFormed (l : list TodoItem) : Prop :=
  l <> []
  /\ (forall t, In t l -> Js.isBlank (id t) = false /\ Js.isBlank (content t) = false)
  /\ countStatus l in_progress <= 1
  /\ NoDup (List.map id l).

(** [x] occurs in [s]. *)
Definition occursIn (x s : string) : Prop :=
  exists before after, s = before ++ x ++ after.

(** * Properties *)

Lemma Status_eqb_eq (a b : Status) : Status_eqb a b = true <-> a = b.
Proof. destruct a, b; simpl; split; congruence. Qed.

(** ** The store update *)

(** [execute] leaves the candidate as the stored list. *)
Lemma execute_currentTodos (params : TodoWriteParams) (st : ModuleState) :
  currentTodos (stateAfter params st) = todos params.
Proof.
  unfold stateAfter, execute, tryBlock, updateStore, generateTodoDisplay, bind,
    getCurrent, getRecent, setCurrent, setRecent, ret.
  destruct (List.find _ (currentTodos st)) as [p|]; simpl.
  - destruct (List.find _ (todos params)); simpl;
      destruct (length (todos params) =? 0); reflexivity.
  - destruct (length (todos params) =? 0); reflexivity.
Qed.

(** The marker [execute] leaves, read off the two lists. *)
Lemma execute_marker (params : TodoWriteParams) (st : ModuleState) :
  mostRecentlyCompletedId (stateAfter params st) =
  match priorInProgress (currentTodos st) with
  | Some prior =>
      match List.find (fun t => String.eqb (id t) (id prior)
                                && Status_eqb (status t) completed) (todos params) with
      | Some now => Some (id now)
      | None => None
      end
  | None => None
  end.
Proof.
  unfold stateAfter, priorInProgress, execute, tryBlock, updateStore,
    generateTodoDisplay, bind, getCurrent, getRecent, setCurrent, setRecent, ret.
  destruct (List.find _ (currentTodos st)) as [p|]; simpl.
  - destruct (List.find _ (todos params)); simpl;
      destruct (length (todos params) =? 0); reflexivity.
  - destruct (length (todos params) =? 0); reflexivity.
Qed.

Lemma find_completes (candidate : list TodoItem) (prior now : TodoItem) :
  List.find (fun t => String.eqb (id t) (id prior)
                      && Status_eqb (status t) completed) candidate = Some now ->
  In now candidate /\ id now = id prior /\ status now = completed.
Proof.
  intros H. apply find_some in H as [Hin Hb].
  apply andb_true_iff in Hb as [Hid Hst].
  apply String.eqb_eq in Hid. apply Status_eqb_eq in Hst. auto.
Qed.

Lemma find_not_completes (candidate : list TodoItem) (prior : TodoItem) :
  List.find (fun t => String.eqb (id t) (id prior)
                      && Status_eqb (status t) completed) candidate = None ->
  ~ completes candidate prior.
Proof.
  intros H [t (Hin & Hid & Hst)].
  pose proof (find_none _ _ H t Hin) as Hb. simpl in Hb.
  rewrite Hid, Hst, String.eqb_refl in Hb. discriminate.
Qed.

Lemma marker_set (params : TodoWriteParams) (st : ModuleState) (prior : TodoItem) :
  priorInProgress (currentTodos st) = Some prior ->
  completes (todos params) prior ->
  mostRecentlyCompletedId (stateAfter params st) = Some (id prior).
Proof.
  intros Hp Hc. rewrite execute_marker, Hp.
  destruct (List.find _ (todos params)) as [now|] eqn:Hfind.
  - apply find_completes in Hfind as (_ & -> & _). reflexivity.
  - apply find_not_completes in Hfind. contradiction.
Qed.

Lemma marker_cleared (params : TodoWriteParams) (st : ModuleState) (prior : TodoItem) :
  priorInProgress (currentTodos st) = Some prior ->
  ~ completes (todos params) prior ->
  mostRecentlyCompletedId (stateAfter params st) = None.
Proof.
  intros Hp Hc. rewrite execute_marker, Hp.
  destruct (List.find _ (todos params)) as [now|] eqn:Hfind; [|reflexivity].
  apply find_completes in Hfind as (Hin & Hid & Hst).
  exfalso. apply Hc. exists now. auto.
Qed.

Lemma marker_cleared_no_prior (params : TodoWriteParams) (st : ModuleState) :
  priorInProgress (currentTodos st) = None ->
  mostRecentlyCompletedId (stateAfter params st) = None.
Proof. intros Hp. rewrite execute_marker, Hp. reflexivity. Qed.

(** C1. On every [execute] call, with [prior] the in-progress item of the
    stored list before the update: if [prior] exists and the candidate holds
    an item with the same id and status completed, the marker is that id
    afterwards; if [prior] exists and the candidate holds no such item, the
    marker is none; if there was no [prior], the marker is none. *)
Theorem execute_recency_marker (params : TodoWriteParams) (st : ModuleState) :
  (forall prior, priorInProgress (currentTodos st) = Some prior ->
     completes (todos params) prior ->
     mostRecentlyCompletedId (stateAfter params st) = Some (id prior))
  /\ (forall prior, priorInProgress (currentTodos st) = Some prior ->
       ~ completes (todos params) prior ->
       mostRecentlyCompletedId (stateAfter params st) = None)
  /\ (priorInProgress (currentTodos st) = None ->
       mostRecentlyCompletedId (stateAfter params st) = None).
Proof.
  split; [|split].
  - intros prior. apply marker_set.
  - intros prior. apply marker_cleared.
  - apply marker_cleared_no_prior.
Qed.

(** The three cases of C1 on a run: "a" in progress, then completed; "a"
    in progress, then pending again; nothing in progress. *)
Lemma execute_recency_marker_witness :
  mostRecentlyCompletedId
    (stateAfter (mkParams [mkTodo "a" "A" completed; mkTodo "b" "B" in_progress])
       (mkState [mkTodo "a" "A" in_progress; mkTodo "b" "B" pending] None)) = Some "a"
  /\ mostRecentlyCompletedId
       (stateAfter (mkParams [mkTodo "a" "A" pending])
          (mkState [mkTodo "a" "A" in_progress] (Some "z"))) = None
  /\ mostRecentlyCompletedId
       (stateAfter (mkParams [mkTodo "a" "A" completed])
          (mkState [mkTodo "a" "A" pending] (Some "z"))) = None.
Proof.
  split; [|split].
  - apply (proj1 (execute_recency_marker _ _) (mkTodo "a" "A" in_progress)).
    + reflexivity.
    + exists (mkTodo "a" "A" completed). simpl. auto.
  - apply (proj1 (proj2 (execute_recency_marker _ _)) (mkTodo "a" "A" in_progress)).
    + reflexivity.
    + intros [t (Hin & Hid & Hst)]. simpl in Hin.
      destruct Hin as [<-|[]]. discriminate.
  - apply (proj2 (proj2 (execute_recency_marker _ _))). reflexivity.
Defined.

Lemma NoDup_map_In_inj {A B : Type} (f : A -> B) (l : list A) (x y : A) :
  NoDup (List.map f l) -> In x l -> In y l -> f x = f y -> x = y.
Proof.
  induction l as [|a l IH]; simpl; [tauto|].
  intros Hnd Hx Hy Heq. apply NoDup_cons in Hnd as [Hnotin Hnd].
  rewrite list_elem_of_In in Hnotin.
  destruct Hx as [<-|Hx], Hy as [<-|Hy]; auto.
  - exfalso. apply Hnotin. rewrite Heq. now apply in_map.
  - exfalso. apply Hnotin. rewrite <- Heq. now apply in_map.
Qed.

(** No item of a list with unique ids completes an in-progress item of the
    same list. *)
Lemma unique_ids_not_completes (l : list TodoItem) (prior : TodoItem) :
  NoDup (List.map id l) -> priorInProgress l = Some prior -> ~ completes l prior.
Proof.
  intros Hnd Hprior [t (Hin & Hid & Hst)].
  apply find_some in Hprior as [Hpin Hpst]. apply Status_eqb_eq in Hpst.
  assert (t = prior) by (eapply NoDup_map_In_inj; eauto).
  subst t. congruence.
Qed.

(** When the ids of the candidate are unique, running [execute] twice in a
    row with the same candidate leaves the marker at none, from every
    starting state. *)
Theorem execute_twice_marker_none (params : TodoWriteParams) (st : ModuleState) :
  NoDup (List.map id (todos params)) ->
  mostRecentlyCompletedId (stateAfter params (stateAfter params st)) = None.
Proof.
  intros Hnd.
  destruct (priorInProgress (currentTodos (stateAfter params st))) as [prior|] eqn:Hp.
  - apply (marker_cleared params _ prior Hp).
    rewrite execute_currentTodos in Hp.
    now apply unique_ids_not_completes.
  - now apply marker_cleared_no_prior.
Qed.

Lemma execute_twice_marker_none_witness :
  NoDup (List.map id [mkTodo "a" "A" in_progress; mkTodo "b" "B" completed])
  /\ mostRecentlyCompletedId
       (stateAfter (mkParams [mkTodo "a" "A" in_progress; mkTodo "b" "B" completed])
          (stateAfter (mkParams [mkTodo "a" "A" in_progress; mkTodo "b" "B" completed])
             (mkState [mkTodo "b" "B" in_progress] (Some "b")))) = None.
Proof.
  assert (Hnd : NoDup (List.map id [mkTodo "a" "A" in_progress; mkTodo "b" "B" completed])).
  { refine (bool_decide_unpack _ _). vm_compute. exact I. }
  split; [exact Hnd|].
  apply (execute_twice_marker_none (mkParams _) _ Hnd).
Defined.

(** [execute] does not check the ids itself: on a candidate in which the
    in-progress id occurs a second time, completed (one the validator turns
    away), the marker is set after the second call. *)
Lemma execute_twice_marker_duplicate_id :
  mostRecentlyCompletedId
    (stateAfter (mkParams [mkTodo "a" "A" in_progress; mkTodo "a" "A again" completed])
       (stateAfter (mkParams [mkTodo "a" "A" in_progress; mkTodo "a" "A again" completed])
          initialState)) <> None.
Proof. vm_compute. discriminate. Qed.

(** ** getCurrentTodos and clearTodos *)

(** [getCurrentTodos] returns the stored list and changes nothing. *)
Lemma getCurrentTodos_reads (st : ModuleState) :
  getCurrentTodos st = (currentTodos st, st).
Proof. reflexivity. Qed.

(** C2, as the code has it.  [clearTodos] empties the stored list and leaves
    the marker as it was. *)
Theorem clearTodos_state (st : ModuleState) :
  currentTodos (snd (clearTodos st)) = []
  /\ mostRecentlyCompletedId (snd (clearTodos st)) = mostRecentlyCompletedId st.
Proof. split; reflexivity. Qed.

(** C2 as stated fails: a marker set before [clearTodos] is still set after. *)
Lemma clearTodos_keeps_marker :
  mostRecentlyCompletedId
    (snd (clearTodos (mkState [mkTodo "a" "A" completed] (Some "a")))) <> None.
Proof. simpl. discriminate. Qed.

(** The marker left by [clearTodos] does not outlive the next [execute]. *)
Lemma execute_after_clearTodos (params : TodoWriteParams) (st : ModuleState) :
  mostRecentlyCompletedId (stateAfter params (snd (clearTodos st))) = None.
Proof. now apply marker_cleared_no_prior. Qed.

(** ** The display of an empty list *)

(** C3, as the code has it.  For an empty list [generateTodoDisplay] returns
    one fixed text whatever the marker: the header line followed by the line
    "No todos currently tracked.", two lines in all. *)
Theorem generateTodoDisplay_empty (st : ModuleState) :
  generateTodoDisplay (mkParams []) st = (emptyDisplay, st)
  /\ Js.lines emptyDisplay = [header; lastBranch ++ " No todos currently tracked."].
Proof. split; reflexivity. Qed.

(** C3 as stated fails: the text for the empty list is not a single line. *)
Lemma generateTodoDisplay_empty_two_lines :
  length (Js.lines (fst (generateTodoDisplay (mkParams []) initialState))) <> 1.
Proof. vm_compute. discriminate. Qed.

(** ** The summary *)

Lemma fold_tally (l : list TodoItem) (c : SummaryCounts) :
  fold_left tally l c =
  mkCounts (total c + length l)
    (completedCount c + length (List.filter (fun t => Status_eqb (status t) completed) l))
    (inProgressCount c + length (List.filter (fun t => Status_eqb (status t) in_progress) l))
    (pendingCount c + length (List.filter (fun t => Status_eqb (status t) pending) l)).
Proof.
  revert c. induction l as [|t l IH]; intros c; simpl.
  - destruct c; simpl. f_equal; lia.
  - rewrite IH. unfold tally. destruct (status t); simpl; f_equal; lia.
Qed.

Lemma filter_status_count (l : list TodoItem) (s : Status) :
  length (List.filter (fun t => Status_eqb (status t) s) l)
  = count_occ Status_eq_dec (List.map status l) s.
Proof.
  induction l as [|t l IH]; simpl; [reflexivity|].
  destruct (Status_eq_dec (status t) s) as [->|Hne].
  - replace (Status_eqb s s) with true by (now destruct s). simpl. now rewrite IH.
  - replace (Status_eqb (status t) s) with false; [exact IH|].
    symmetry. apply not_true_iff_false. rewrite Status_eqb_eq. exact Hne.
Qed.

(** C9. The summary reports the exact per-status tallies of the list in the
    format "N total tasks: C completed, I in progress, P pending"; for the
    two-item example of the specification the summary in the success payload
    is "2 total tasks: 0 completed, 1 in progress, 1 pending". *)
Theorem generateSummary_tallies :
  (forall params : TodoWriteParams,
     let c := renderSummaryCounts (todos params) in
     generateSummary params = formatSummary c
     /\ total c = length (todos params)
     /\ completedCount c = count_occ Status_eq_dec (List.map status (todos params)) completed
     /\ inProgressCount c = count_occ Status_eq_dec (List.map status (todos params)) in_progress
     /\ pendingCount c = count_occ Status_eq_dec (List.map status (todos params)) pending)
  /\ (forall st : ModuleState,
       let example := mkParams [mkTodo "t1" "Write spec" in_progress;
                                mkTodo "t2" "Review" pending] in
       generateSummary example = "2 total tasks: 0 completed, 1 in progress, 1 pending"
       /\ llmContent (fst (execute example st))
          = Js.stringify (successPayload example
              "2 total tasks: 0 completed, 1 in progress, 1 pending")).
Proof.
  split.
  - intros params c. subst c. unfold renderSummaryCounts.
    rewrite fold_tally. simpl. rewrite <- !filter_status_count. repeat split.
  - intros st example. split; [reflexivity|].
    unfold execute, tryBlock, bind.
    destruct (updateStore example st) as [u st1].
    destruct (generateTodoDisplay example st1) as [d st2]. reflexivity.
Qed.

(** ** The try block *)

(** The typed [execute] returns the success result. *)
Theorem execute_succeeds (params : TodoWriteParams) (st : ModuleState) :
  exists (display : string) (st' : ModuleState),
    let result := {| llmContent :=
                       Js.stringify
                         (Js.JObject
                            [("success", Js.JBool true);
                             ("message", Js.JString "Todo list updated successfully");
                             ("todos", Js.JArray (List.map todoJson (todos params)));
                             ("summary", Js.JString (generateSummary params))]);
                     returnDisplay := display |} in
    tryBlock params st = (Normal result, st')
    /\ execute params st = (result, st').
Proof.
  unfold execute, tryBlock, bind.
  destruct (updateStore params st) as [u st1].
  destruct (generateTodoDisplay params st1) as [d st2].
  exists d, st2. split; reflexivity.
Qed.

(** ** Trimming *)

Lemma string_length_ind (P : string -> Prop) :
  (forall s, (forall t, String.length t < String.length s -> P t) -> P s) ->
  forall s, P s.
Proof.
  intros step s.
  assert (H : forall n t, String.length t < n -> P t).
  { induction n as [|n IH]; intros t Hlt; [lia|].
    apply step. intros u Hu. apply IH. lia. }
  apply (H (S (String.length s))). lia.
Qed.

(** [trimStart] either stops at once or goes on from a shorter string. *)
Lemma trimStart_cases (s : string) :
  Js.trimStart s = s
  \/ exists t, String.length t < String.length s /\ Js.trimStart s = Js.trimStart t.
Proof.
  destruct s as [|a r1]; [now left|]. simpl.
  destruct (Js.ws1 a). { right. exists r1. simpl. split; [lia|reflexivity]. }
  destruct r1 as [|b r2]; [now left|].
  destruct (Js.ws2 a b). { right. exists r2. simpl. split; [lia|reflexivity]. }
  destruct r2 as [|c r3]; [now left|].
  destruct (Js.ws3 a b c). { right. exists r3. simpl. split; [lia|reflexivity]. }
  now left.
Qed.

Lemma trimStart_idem (s : string) : Js.trimStart (Js.trimStart s) = Js.trimStart s.
Proof.
  induction s as [s IH] using string_length_ind.
  destruct (trimStart_cases s) as [H|(t & Hlt & H)].
  - now rewrite !H.
  - rewrite H. now apply IH.
Qed.

Lemma trimEnd_empty (s : string) :
  Js.trimEnd s = EmptyString <-> Js.isBlank s = true.
Proof.
  destruct s as [|a r]; [easy|].
  cbn [Js.trimEnd]. destruct (Js.isBlank (String a r)); split; congruence.
Qed.

Lemma isBlank_trimStart (s : string) : Js.isBlank (Js.trimStart s) = Js.isBlank s.
Proof. unfold Js.isBlank. now rewrite trimStart_idem. Qed.

(** [s.trim() === ''] says that [s] is white space only. *)
Lemma trim_empty (s : string) :
  String.eqb (Js.trim s) EmptyString = Js.isBlank s.
Proof.
  unfold Js.trim. rewrite <- (isBlank_trimStart s).
  destruct (Js.isBlank (Js.trimStart s)) eqn:Hb.
  - apply String.eqb_eq. now apply trimEnd_empty.
  - apply String.eqb_neq. rewrite trimEnd_empty. congruence.
Qed.

(** ** The validator *)

Lemma field_check (v : Any.Value) :
  Any.not v || Any.notString v || Any.trimIsEmpty v = blankField v.
Proof.
  destruct v as [| |b|n|s]; simpl; try reflexivity.
  - now destruct b.
  - now destruct (Z.eqb n 0).
  - rewrite trim_empty, orb_false_r. destruct s; reflexivity.
Qed.

Lemma status_check (v : Any.Value) :
  existsb (Any.isStr v) ["pending"; "in_progress"; "completed"] = validStatus v.
Proof.
  destruct v as [| |b|n|s]; simpl; try reflexivity.
  rewrite orb_false_r.
  destruct (String.eqb_spec s "pending") as [->|H1]; [reflexivity|].
  destruct (String.eqb_spec s "in_progress") as [->|H2]; [reflexivity|].
  destruct (String.eqb_spec s "completed") as [->|H3]; [reflexivity|].
  simpl. symmetry. apply bool_decide_eq_false. tauto.
Qed.

(** The loop reports the first violation of the items, if there is one. *)
Lemma validateItems_first (items : list Any.TodoItem) (i : nat) :
  validateItems i items = violationMessage <$> head (violationsOfItems i items).
Proof.
  revert i. induction items as [|todo rest IH]; intros i; [reflexivity|].
  cbn [validateItems violationsOfItems]. unfold violationsOfItem.
  rewrite !field_check, status_check.
  destruct (blankField (Any.id todo)); [reflexivity|].
  destruct (blankField (Any.content todo)); [reflexivity|].
  destruct (validStatus (Any.status todo)); [|reflexivity].
  simpl. apply IH.
Qed.

Lemma filter_in_progress_count (items : list Any.TodoItem) :
  length (List.filter (fun todo => Any.isStr (Any.status todo) "in_progress") items)
  = countInProgress items.
Proof.
  induction items as [|todo rest IH]; [reflexivity|]. simpl.
  destruct (Any.status todo) as [| |b|n|s]; simpl; try exact IH.
  destruct (String.eqb_spec s "in_progress") as [->|Hne].
  - simpl. now rewrite IH.
  - rewrite bool_decide_eq_false_2 by congruence. exact IH.
Qed.

Lemma remove_dups_length_le {A : Type} `{EqDecision A} (l : list A) :
  length (remove_dups l) <= length l.
Proof.
  induction l as [|x l IH]; simpl; [lia|].
  destruct (decide_rel elem_of x l); simpl; lia.
Qed.

(** The size of the set of ids equals the number of ids exactly when no id
    occurs twice. *)
Lemma set_size_NoDup (ids : list Any.Value) :
  (length ids =? Any.setSize ids) = bool_decide (NoDup ids).
Proof.
  unfold Any.setSize.
  destruct (decide (NoDup ids)) as [Hnd|Hnd].
  - rewrite bool_decide_eq_true_2 by assumption.
    apply Nat.eqb_eq. clear -Hnd.
    induction Hnd as [|x l Hx Hnd IH]; simpl; [reflexivity|].
    destruct (decide_rel elem_of x l); [contradiction|]. simpl. now rewrite IH.
  - rewrite bool_decide_eq_false_2 by assumption.
    apply Nat.eqb_neq. intros Heq. apply Hnd. clear Hnd.
    induction ids as [|x l IH]; [constructor|].
    simpl in Heq. destruct (decide_rel elem_of x l) as [Hin|Hnotin].
    + pose proof (remove_dups_length_le l). lia.
    + constructor; [assumption|]. apply IH. simpl in Heq. lia.
Qed.

(** C5. Once the schema check has passed, [validateToolParams] reports
    exactly the first violation in the fixed order: not a non-empty array;
    then item by item, in submission order, the id, the content and the
    status of that index; then, after all the items, more than one task in
    progress; then duplicate ids.  Of several violations the message is that
    of the one this order reaches first, and there is no message when there
    is no violation. *)
Theorem validateToolParams_first_violation
    (schemaValidate : Any.TodoWriteParams -> option string)
    (params : Any.TodoWriteParams) :
  schemaValidate params = None ->
  validateToolParams schemaValidate params
  = violationMessage <$> head (violations params).
Proof.
  intros Hschema. unfold validateToolParams, violations. rewrite Hschema.
  destruct (Any.todos params) as [items|v]; [|reflexivity].
  destruct items as [|todo rest]; [reflexivity|].
  cbn [length Nat.eqb app].
  rewrite validateItems_first.
  destruct (violationsOfItems 0 (todo :: rest)) as [|v vs]; [|reflexivity].
  cbn [head fmap option_fmap option_map app].
  rewrite filter_in_progress_count.
  destruct (decide (1 < countInProgress (todo :: rest))) as [Hc|Hc].
  - rewrite (bool_decide_eq_true_2 _ Hc).
    apply Nat.ltb_lt in Hc. now rewrite Hc.
  - rewrite (bool_decide_eq_false_2 _ Hc).
    apply Nat.ltb_nlt in Hc. rewrite Hc.
    rewrite set_size_NoDup.
    destruct (bool_decide (NoDup (List.map Any.id (todo :: rest)))); reflexivity.
Qed.

(** A submission with a blank content and a bad status at index 0, a missing
    id at index 1, two tasks in progress and a repeated id: the content of
    index 0 is what is reported. *)
Lemma validateToolParams_first_violation_witness :
  validateToolParams (fun _ => None)
    (Any.mkParams (Any.Array
       [Any.mkTodo (Any.Str "a") (Any.Str "  ") (Any.Str "done");
        Any.mkTodo Any.Undefined (Any.Str "B") (Any.Str "in_progress");
        Any.mkTodo (Any.Str "a") (Any.Str "C") (Any.Str "in_progress")]))
  = Some (contentMessage 0).
Proof.
  exact (eq_trans (validateToolParams_first_violation (fun _ => None) _ eq_refl) eq_refl).
Defined.

(** The cases of the test suite. *)
Example validate_accepts_valid :
  validateToolParams (fun _ => None)
    (eraseParams (mkParams [mkTodo "task1" "Complete task 1" pending;
                            mkTodo "task2" "Complete task 2" in_progress])) = None.
Proof. reflexivity. Qed.

Example validate_rejects_missing_id :
  validateToolParams (fun _ => None)
    (Any.mkParams (Any.Array
       [Any.mkTodo Any.Undefined (Any.Str "Complete task 1") (Any.Str "pending")]))
  = Some (idMessage 0).
Proof. reflexivity. Qed.

Example validate_rejects_invalid_status :
  validateToolParams (fun _ => None)
    (Any.mkParams (Any.Array
       [Any.mkTodo (Any.Str "task1") (Any.Str "Complete task 1") (Any.Str "invalid")]))
  = Some (statusMessage 0).
Proof. reflexivity. Qed.

Example validate_rejects_two_in_progress :
  validateToolParams (fun _ => None)
    (eraseParams (mkParams [mkTodo "task1" "Task 1" in_progress;
                            mkTodo "task2" "Task 2" in_progress]))
  = Some inProgressMessage.
Proof. reflexivity. Qed.

Example validate_rejects_duplicate_ids :
  validateToolParams (fun _ => None)
    (eraseParams (mkParams [mkTodo "task1" "Task 1" pending;
                            mkTodo "task1" "Task 2" pending]))
  = Some uniqueMessage.
Proof. reflexivity. Qed.

(** The empty array is turned away whatever the schema check says, and the
    message of line 406, the one containing "must be a non-empty array", is
    the answer only when the schema check lets the empty array through. *)
Theorem empty_todos_rejected
    (schemaValidate : Any.TodoWriteParams -> option string) (st : ModuleState) :
  (exists message,
     validateToolParams schemaValidate (Any.mkParams (Any.Array [])) = Some message
     /\ invoke schemaValidate (mkParams []) st = (Rejected message, st))
  /\ (schemaValidate (Any.mkParams (Any.Array [])) = None ->
      validateToolParams schemaValidate (Any.mkParams (Any.Array [])) = Some emptyMessage
      /\ Js.includes emptyMessage "must be a non-empty array" = true
      /\ invoke schemaValidate (mkParams []) st = (Rejected emptyMessage, st)).
Proof.
  assert (Hinvoke : forall message,
            validateToolParams schemaValidate (Any.mkParams (Any.Array [])) = Some message ->
            invoke schemaValidate (mkParams []) st = (Rejected message, st)).
  { intros message Hv. unfold invoke.
    change (eraseParams (mkParams [])) with (Any.mkParams (Any.Array [])).
    now rewrite Hv. }
  split.
  - unfold validateToolParams in *.
    destruct (schemaValidate (Any.mkParams (Any.Array []))) as [errors|];
      eexists; (split; [reflexivity|]); now apply Hinvoke.
  - intros Hschema.
    assert (Hv : validateToolParams schemaValidate (Any.mkParams (Any.Array []))
                 = Some emptyMessage).
    { unfold validateToolParams. now rewrite Hschema. }
    split; [exact Hv|]. split; [reflexivity|]. now apply Hinvoke.
Qed.

Lemma empty_todos_rejected_witness :
  validateToolParams (fun _ => None) (Any.mkParams (Any.Array [])) = Some emptyMessage
  /\ Js.includes emptyMessage "must be a non-empty array" = true
  /\ invoke (fun _ => None) (mkParams [])
       (mkState [mkTodo "a" "A" in_progress] (Some "z"))
     = (Rejected emptyMessage, mkState [mkTodo "a" "A" in_progress] (Some "z")).
Proof. exact (proj2 (empty_todos_rejected (fun _ => None) _) eq_refl). Defined.

(** ** Copies of the list *)

Lemma readArray_alloc (h : Refs.Heap) (refs : list Refs.loc) (a : Refs.loc) :
  a < length (Refs.arrays h) ->
  Refs.readArray (Refs.mkHeap (Refs.items h) (Refs.arrays h ++ [refs])) a
  = Refs.readArray h a.
Proof. intros Hlt. unfold Refs.readArray. simpl. now rewrite lookup_app_l. Qed.

Lemma readArray_writeArray_ne (h : Refs.Heap) (refs : list Refs.loc) (a b : Refs.loc) :
  a <> b -> Refs.readArray (Refs.writeArray a refs h) b = Refs.readArray h b.
Proof.
  intros Hne. unfold Refs.readArray, Refs.writeArray. simpl.
  now rewrite list_lookup_insert_ne.
Qed.

(** A spread allocates a new array that holds the addresses of the old. *)
Lemma spread_spec (h h' : Refs.Heap) (a copy : Refs.loc) :
  Refs.spread h a = Some (copy, h') ->
  a < length (Refs.arrays h)
  /\ copy = length (Refs.arrays h)
  /\ Refs.items h' = Refs.items h
  /\ Refs.arrays h' !! copy = Refs.arrays h !! a
  /\ (forall b, b < length (Refs.arrays h) -> Refs.arrays h' !! b = Refs.arrays h !! b)
  /\ (forall b, b < length (Refs.arrays h) -> Refs.readArray h' b = Refs.readArray h b)
  /\ Refs.readArray h' copy = Refs.readArray h a.
Proof.
  unfold Refs.spread. intros H.
  destruct (Refs.arrays h !! a) as [refs|] eqn:Ha; simpl in H; [|discriminate].
  injection H as <- <-. pose proof (lookup_lt_Some _ _ _ Ha) as Hlt.
  split; [exact Hlt|]. split; [reflexivity|]. split; [reflexivity|].
  cbn [Refs.arrays Refs.items].
  assert (Hnew : (Refs.arrays h ++ [refs])%list !! length (Refs.arrays h) = Some refs).
  { rewrite lookup_app_r by lia. now rewrite Nat.sub_diag. }
  split; [exact Hnew|].
  split; [intros b Hb; now rewrite lookup_app_l|].
  split; [intros b Hb; now apply readArray_alloc|].
  unfold Refs.readArray. cbn [Refs.arrays Refs.items]. now rewrite Hnew, Ha.
Qed.

Lemma updateStore_spread (paramsTodos : Refs.loc) (s s' : Refs.Store) (h h' : Refs.Heap) :
  Refs.updateStore paramsTodos s h = Some (s', h') ->
  Refs.spread h paramsTodos = Some (Refs.currentTodos s', h').
Proof.
  unfold Refs.updateStore. intros H.
  destruct (Refs.readArray h (Refs.currentTodos s)); simpl in H; [|discriminate].
  destruct (Refs.readArray h paramsTodos); simpl in H; [|discriminate].
  destruct (Refs.spread h paramsTodos) as [[copy h1]|]; simpl in H; [|discriminate].
  now injection H as <- <-.
Qed.

(** On the lists the arrays hold, the update at addresses is the update of
    the state-passing model. *)
Lemma updateStore_refines (paramsTodos : Refs.loc) (s s' : Refs.Store) (h h' : Refs.Heap)
    (current candidate : list TodoItem) :
  Refs.stored s h = Some current ->
  Refs.readArray h paramsTodos = Some candidate ->
  Refs.updateStore paramsTodos s h = Some (s', h') ->
  Refs.stored s' h' = Some candidate
  /\ snd (updateStore (mkParams candidate)
            (mkState current (Refs.mostRecentlyCompletedId s)))
     = mkState candidate (Refs.mostRecentlyCompletedId s').
Proof.
  intros Hcur Hcand H. pose proof (updateStore_spread _ _ _ _ _ H) as Hsp.
  apply spread_spec in Hsp as (_ & _ & _ & _ & _ & _ & Hread).
  split; [unfold Refs.stored; congruence|].
  unfold Refs.updateStore in H. unfold Refs.stored in Hcur.
  rewrite Hcur, Hcand in H. simpl in H.
  destruct (Refs.spread h paramsTodos) as [[copy h1]|]; simpl in H; [|discriminate].
  injection H as <- <-. simpl.
  unfold updateStore, bind, getCurrent, setRecent, setCurrent. simpl.
  destruct (List.find _ current) as [p|]; simpl; [|reflexivity].
  destruct (List.find _ candidate); reflexivity.
Qed.

(** The update succeeds on a heap in which the two arrays and their items
    are allocated. *)
Lemma updateStore_total (paramsTodos : Refs.loc) (s : Refs.Store) (h : Refs.Heap)
    (current candidate : list TodoItem) :
  Refs.stored s h = Some current ->
  Refs.readArray h paramsTodos = Some candidate ->
  exists s' h', Refs.updateStore paramsTodos s h = Some (s', h').
Proof.
  intros Hcur Hcand. unfold Refs.updateStore. unfold Refs.stored in Hcur.
  rewrite Hcur, Hcand. simpl. unfold Refs.spread.
  unfold Refs.readArray in Hcand.
  destruct (Refs.arrays h !! paramsTodos); [|discriminate]. simpl. eauto.
Qed.

(** C4, as the code has it.  Both copies are spreads: [execute] stores, and
    [getCurrentTodos] returns, a new array that holds the same item objects.
    Whatever the caller then does to the elements of its own array, the
    stored list is unchanged; the items are shared, not copied. *)
Theorem copies_are_new_arrays_of_shared_items :
  (forall paramsTodos s h s' h',
     Refs.updateStore paramsTodos s h = Some (s', h') ->
     Refs.currentTodos s' <> paramsTodos
     /\ Refs.arrays h' !! Refs.currentTodos s' = Refs.arrays h !! paramsTodos
     /\ Refs.stored s' h' = Refs.readArray h paramsTodos
     /\ forall refs, Refs.stored s' (Refs.writeArray paramsTodos refs h') = Refs.stored s' h')
  /\ (forall s h copy h',
       Refs.getCurrentTodos s h = Some (copy, h') ->
       copy <> Refs.currentTodos s
       /\ Refs.arrays h' !! copy = Refs.arrays h !! Refs.currentTodos s
       /\ Refs.stored s h' = Refs.stored s h
       /\ forall refs, Refs.stored s (Refs.writeArray copy refs h') = Refs.stored s h').
Proof.
  split.
  - intros paramsTodos s h s' h' H. apply updateStore_spread in H.
    apply spread_spec in H as (Hlt & Hcopy & _ & Hsame & _ & _ & Hread).
    assert (Hne : Refs.currentTodos s' <> paramsTodos) by lia.
    repeat split; try assumption.
    intros refs. unfold Refs.stored. apply readArray_writeArray_ne. lia.
  - intros s h copy h' H. unfold Refs.getCurrentTodos in H.
    apply spread_spec in H as (Hlt & Hcopy & _ & Hsame & _ & Hold & _).
    assert (Hne : copy <> Refs.currentTodos s) by lia.
    repeat split; try assumption.
    + unfold Refs.stored. now apply Hold.
    + intros refs. unfold Refs.stored. now apply readArray_writeArray_ne.
Qed.

(** The caller empties its array after [execute] and after
    [getCurrentTodos]: the store still reads the item. *)
Lemma copies_are_new_arrays_of_shared_items_witness :
  Refs.stored (Refs.mkStore 2 None)
    (Refs.writeArray 1 [] (Refs.mkHeap [mkTodo "a" "A" pending] [[]; [0]; [0]]))
  = Refs.stored (Refs.mkStore 2 None) (Refs.mkHeap [mkTodo "a" "A" pending] [[]; [0]; [0]])
  /\ Refs.stored (Refs.mkStore 2 None)
       (Refs.writeArray 3 [] (Refs.mkHeap [mkTodo "a" "A" pending] [[]; [0]; [0]; [0]]))
     = Refs.stored (Refs.mkStore 2 None)
         (Refs.mkHeap [mkTodo "a" "A" pending] [[]; [0]; [0]; [0]]).
Proof.
  split.
  - apply (proj1 copies_are_new_arrays_of_shared_items 1 (Refs.mkStore 0 None)
             (Refs.mkHeap [mkTodo "a" "A" pending] [[]; [0]])
             (Refs.mkStore 2 None) _ eq_refl).
  - apply (proj2 copies_are_new_arrays_of_shared_items (Refs.mkStore 2 None)
             (Refs.mkHeap [mkTodo "a" "A" pending] [[]; [0]; [0]]) 3 _ eq_refl).
Defined.

(** C4 as stated fails: the item objects are not copied.  After [execute]
    the caller completes the item it passed in, and the store reads it
    completed; the same happens through the item of the array that
    [getCurrentTodos] returned. *)
Lemma caller_item_write_reaches_store :
  Refs.updateStore 1 (Refs.mkStore 0 None) (Refs.mkHeap [mkTodo "a" "A" pending] [[]; [0]])
  = Some (Refs.mkStore 2 None, Refs.mkHeap [mkTodo "a" "A" pending] [[]; [0]; [0]])
  /\ Refs.stored (Refs.mkStore 2 None)
       (Refs.writeItem 0 (mkTodo "a" "A" completed)
          (Refs.mkHeap [mkTodo "a" "A" pending] [[]; [0]; [0]]))
     <> Refs.stored (Refs.mkStore 2 None)
          (Refs.mkHeap [mkTodo "a" "A" pending] [[]; [0]; [0]])
  /\ Refs.getCurrentTodos (Refs.mkStore 2 None)
       (Refs.mkHeap [mkTodo "a" "A" pending] [[]; [0]; [0]])
     = Some (3, Refs.mkHeap [mkTodo "a" "A" pending] [[]; [0]; [0]; [0]])
  /\ Refs.stored (Refs.mkStore 2 None)
       (Refs.writeItem 0 (mkTodo "a" "A" completed)
          (Refs.mkHeap [mkTodo "a" "A" pending] [[]; [0]; [0]; [0]]))
     <> Refs.stored (Refs.mkStore 2 None)
          (Refs.mkHeap [mkTodo "a" "A" pending] [[]; [0]; [0]; [0]]).
Proof. repeat split; vm_compute; discriminate. Qed.

(** ** The display of a list *)

Lemma string_app_assoc (a b c : string) : (a ++ b) ++ c = a ++ b ++ c.
Proof. induction a as [|x a IH]; simpl; [reflexivity|now rewrite IH]. Qed.

Lemma string_app_empty_r (a : string) : a ++ EmptyString = a.
Proof. induction a as [|x a IH]; simpl; [reflexivity|now rewrite IH]. Qed.

Ltac split_bool :=
  repeat match goal with
    | H : _ \/ _ |- _ => destruct H
    | H : _ || _ = false |- _ => apply orb_false_elim in H; destruct H
    | H : _ && _ = true |- _ => apply andb_true_iff in H; destruct H
    | H : _ || _ = true |- _ => apply orb_true_iff in H; destruct H
    | H : _ && _ = false |- _ => apply andb_false_iff in H; destruct H
    | H : (_ =? _) = true |- _ => apply Nat.eqb_eq in H
    | H : (_ =? _) = false |- _ => apply Nat.eqb_neq in H
    | H : (_ <=? _) = true |- _ => apply Nat.leb_le in H
    | H : (_ <=? _) = false |- _ => apply Nat.leb_gt in H
    end.

(** A byte of no white space character starts none. *)
Lemma wsByte_ws1 (z : ascii) : wsByte z = false -> Js.ws1 z = false.
Proof.
  unfold wsByte, Js.ws1. generalize (nat_of_ascii z). intros n H.
  apply not_true_iff_false. intros H2. split_bool; lia.
Qed.

Lemma wsByte_ws2 (a b : ascii) :
  wsByte a = false \/ wsByte b = false -> Js.ws2 a b = false.
Proof.
  unfold wsByte, Js.ws2.
  generalize (nat_of_ascii a) (nat_of_ascii b). intros n m H.
  apply not_true_iff_false. intros H2. split_bool; lia.
Qed.

Lemma wsByte_ws3 (a b c : ascii) :
  wsByte a = false \/ wsByte b = false \/ wsByte c = false -> Js.ws3 a b c = false.
Proof.
  unfold wsByte, Js.ws3.
  generalize (nat_of_ascii a) (nat_of_ascii b) (nat_of_ascii c). intros n m k H.
  apply not_true_iff_false. intros H2. split_bool; lia.
Qed.

(** A string with a byte of no white space character in it is not blank. *)
Lemma isBlank_solid (z : ascii) (Y : string) :
  wsByte z = false -> forall X, Js.isBlank (X ++ String z Y) = false.
Proof.
  intros Hz X. induction X as [X IH] using string_length_ind.
  destruct X as [|a X1].
  - unfold Js.isBlank. cbn [String.append Js.trimStart].
    rewrite (wsByte_ws1 _ Hz).
    destruct Y as [|b Y2]; [reflexivity|]. rewrite wsByte_ws2 by auto.
    destruct Y2 as [|c Y3]; [reflexivity|]. rewrite wsByte_ws3 by auto. reflexivity.
  - unfold Js.isBlank. cbn [String.append Js.trimStart].
    destruct (Js.ws1 a). { apply (IH X1). simpl. lia. }
    destruct X1 as [|b X2]; cbn [String.append].
    + rewrite wsByte_ws2 by auto.
      destruct Y as [|c Y3]; [reflexivity|]. rewrite wsByte_ws3 by auto. reflexivity.
    + destruct (Js.ws2 a b). { apply (IH X2). simpl. lia. }
      destruct X2 as [|c X3]; cbn [String.append].
      * rewrite wsByte_ws3 by auto. reflexivity.
      * destruct (Js.ws3 a b c); [|reflexivity]. apply (IH X3). simpl. lia.
Qed.

(** [trimEnd] stops at such a byte. *)
Lemma trimEnd_solid (z : ascii) (X Y : string) :
  wsByte z = false ->
  Js.trimEnd (X ++ String z Y) = X ++ String z (Js.trimEnd Y).
Proof.
  intros Hz. induction X as [|a X IH].
  - pose proof (isBlank_solid z Y Hz EmptyString) as Hb.
    cbn [String.append Js.trimEnd] in *. now rewrite Hb.
  - pose proof (isBlank_solid z Y Hz (String a X)) as Hb.
    cbn [String.append Js.trimEnd] in *. now rewrite Hb, IH.
Qed.

Lemma ws2_LF (a : ascii) : Js.ws2 a Js.LF = false.
Proof.
  apply not_true_iff_false. unfold Js.ws2. change (nat_of_ascii Js.LF) with 10.
  intros H. split_bool. lia.
Qed.

Lemma ws3_LF (a b : ascii) : Js.ws3 a b Js.LF = false.
Proof.
  apply not_true_iff_false. unfold Js.ws3. change (nat_of_ascii Js.LF) with 10.
  intros H. split_bool; lia.
Qed.

(** A trailing line feed does not change whether a string is blank. *)
Lemma isBlank_nl (s : string) : Js.isBlank (s ++ Js.nl) = Js.isBlank s.
Proof.
  induction s as [s IH] using string_length_ind.
  destruct s as [|a r1]; [reflexivity|].
  unfold Js.isBlank in *. change Js.nl with (String Js.LF EmptyString) in *.
  cbn [String.append Js.trimStart].
  destruct (Js.ws1 a). { apply (IH r1). simpl. lia. }
  destruct r1 as [|b r2]; cbn [String.append].
  { now rewrite ws2_LF. }
  destruct (Js.ws2 a b). { apply (IH r2). simpl. lia. }
  destruct r2 as [|c r3]; cbn [String.append].
  { now rewrite ws3_LF. }
  destruct (Js.ws3 a b c); [|reflexivity]. apply (IH r3). simpl. lia.
Qed.

Lemma trimEnd_nl (s : string) : Js.trimEnd (s ++ Js.nl) = Js.trimEnd s.
Proof.
  induction s as [|a r IH]; [reflexivity|].
  cbn [String.append Js.trimEnd].
  change (String a (r ++ Js.nl)) with (String a r ++ Js.nl).
  now rewrite isBlank_nl, IH.
Qed.

(** ** Lines *)

Lemma hasLineFeed_app (a b : string) :
  hasLineFeed (a ++ b) = hasLineFeed a || hasLineFeed b.
Proof.
  induction a as [|x a IH]; [reflexivity|].
  simpl. now rewrite IH, orb_assoc.
Qed.

Lemma hasLineFeed_trimEnd (s : string) :
  hasLineFeed s = false -> hasLineFeed (Js.trimEnd s) = false.
Proof.
  induction s as [|a r IH]; [reflexivity|].
  cbn [Js.trimEnd hasLineFeed]. intros H. apply orb_false_elim in H as [Ha Hr].
  destruct (Js.isBlank (String a r)); [reflexivity|].
  cbn [hasLineFeed]. now rewrite Ha, IH.
Qed.

Lemma lines_single (s : string) : hasLineFeed s = false -> Js.lines s = [s].
Proof.
  induction s as [|a r IH]; [reflexivity|].
  cbn [hasLineFeed Js.lines]. intros H. apply orb_false_elim in H as [Ha Hr].
  now rewrite Ha, IH.
Qed.

Lemma lines_app_nl (a b : string) :
  hasLineFeed a = false -> Js.lines (a ++ Js.nl ++ b) = a :: Js.lines b.
Proof.
  induction a as [|x a IH].
  - reflexivity.
  - cbn [hasLineFeed String.append Js.lines]. intros H.
    apply orb_false_elim in H as [Hx Ha]. now rewrite Hx, IH.
Qed.

Lemma lines_unlines (ls : list string) (final : string) :
  (forall l, In l ls -> hasLineFeed l = false) ->
  hasLineFeed final = false ->
  Js.lines (unlines ls ++ final) = (ls ++ [final])%list.
Proof.
  intros Hls Hfinal. induction ls as [|l ls IH].
  - now apply lines_single.
  - cbn [unlines]. rewrite !string_app_assoc. rewrite lines_app_nl.
    + rewrite IH; [reflexivity|]. intros l' Hin. apply Hls. now right.
    + apply Hls. now left.
Qed.

Lemma unlines_app (ls : list string) (l : string) :
  unlines (ls ++ [l]) = unlines ls ++ l ++ Js.nl.
Proof.
  induction ls as [|x ls IH]; cbn [app unlines].
  - now rewrite (string_app_empty_r Js.nl).
  - now rewrite IH, !string_app_assoc.
Qed.

(** ** The display of a list with items *)

(** The loop appends one line per item, in the order of the list. *)
Lemma forEach_displayStep (recent : option string) (n : nat) (l : list TodoItem)
    (index : nat) (display : string) :
  forEach (displayStep recent n) l index display
  = display ++ unlines (itemLines recent n index l).
Proof.
  revert index display. induction l as [|todo rest IH]; intros index display.
  - cbn [forEach itemLines unlines]. now rewrite string_app_empty_r.
  - cbn [forEach itemLines unlines]. rewrite IH.
    unfold displayStep, itemLine, statusIcon.
    destruct (status todo); now rewrite !string_app_assoc.
Qed.

Lemma itemLines_app (recent : option string) (n index : nat) (l1 l2 : list TodoItem) :
  itemLines recent n index (l1 ++ l2)
  = (itemLines recent n index l1 ++ itemLines recent n (index + length l1) l2)%list.
Proof.
  revert index. induction l1 as [|t l1 IH]; intros index; cbn [app itemLines length].
  - now rewrite Nat.add_0_r.
  - rewrite IH. now rewrite Nat.add_succ_comm.
Qed.

Lemma itemLines_length (recent : option string) (n index : nat) (l : list TodoItem) :
  length (itemLines recent n index l) = length l.
Proof. revert index. induction l as [|t l IH]; intros index; simpl; auto. Qed.

Lemma itemLines_lookup (recent : option string) (n index : nat) (l : list TodoItem)
    (i : nat) (t : TodoItem) :
  l !! i = Some t ->
  itemLines recent n index l !! i = Some (itemLine recent n (index + i) t).
Proof.
  revert index i. induction l as [|x l IH]; intros index i H; [discriminate|].
  destruct i as [|i]; cbn [itemLines].
  - injection H as ->. now rewrite Nat.add_0_r.
  - rewrite <- Nat.add_succ_comm. now apply IH.
Qed.

Lemma styledContent_no_line_feed (recent : option string) (t : TodoItem) :
  hasLineFeed (content t) = false -> hasLineFeed (styledContent recent t) = false.
Proof.
  intros H. unfold styledContent.
  destruct (status t); [exact H| |destruct (isRecent (id t) recent)];
    rewrite !hasLineFeed_app, H; reflexivity.
Qed.

Lemma itemLine_no_line_feed (recent : option string) (n i : nat) (t : TodoItem) :
  hasLineFeed (content t) = false -> hasLineFeed (itemLine recent n i t) = false.
Proof.
  intros H. unfold itemLine. rewrite !hasLineFeed_app.
  rewrite (styledContent_no_line_feed recent t H).
  destruct (i =? n - 1), (status t); reflexivity.
Qed.

(** Both boxes end in a byte at which [trimEnd] stops. *)
Lemma trimEnd_after_box (s : Status) (P Q : string) :
  Js.trimEnd (P ++ (match s with completed => checkedBox | _ => emptyBox end) ++ Q)
  = P ++ (match s with completed => checkedBox | _ => emptyBox end) ++ Js.trimEnd Q.
Proof.
  assert (H : forall (B : string) (z : ascii), wsByte z = false ->
            Js.trimEnd (P ++ (B ++ String z EmptyString) ++ Q)
            = P ++ (B ++ String z EmptyString) ++ Js.trimEnd Q).
  { intros B z Hz. rewrite !(string_app_assoc B). cbn [String.append].
    rewrite <- !(string_app_assoc P B), trimEnd_solid by exact Hz.
    reflexivity. }
  destruct s.
  - change emptyBox
      with ((Js.chr 195 ++ Js.chr 162 ++ Js.chr 203) ++ String (ascii_of_nat 156) EmptyString).
    now apply H.
  - change emptyBox
      with ((Js.chr 195 ++ Js.chr 162 ++ Js.chr 203) ++ String (ascii_of_nat 156) EmptyString).
    now apply H.
  - change checkedBox
      with ((Js.chr 195 ++ Js.chr 162 ++ Js.chr 203 ++ Js.chr 156 ++ Js.chr 226 ++ Js.chr 128)
            ++ String (ascii_of_nat 152) EmptyString).
    now apply H.
Qed.

Lemma trimStart_header (s : string) : Js.trimStart (header ++ s) = header ++ s.
Proof. reflexivity. Qed.

(** The display of a list that ends in [lastTodo], before it is split into
    lines: the header, the lines of the items before the last, and the line
    of the last item with the white space at its end removed. *)
Lemma generateTodoDisplay_shape (front : list TodoItem) (lastTodo : TodoItem)
    (st : ModuleState) :
  let recent := mostRecentlyCompletedId st in
  let n := S (length front) in
  fst (generateTodoDisplay (mkParams (front ++ [lastTodo])) st)
  = header ++ Js.nl ++ unlines (itemLines recent n 0 front)
      ++ lastBranch ++ " "
      ++ (match status lastTodo with completed => checkedBox | _ => emptyBox end)
      ++ Js.trimEnd (" " ++ styledContent recent lastTodo).
Proof.
  intros recent n.
  unfold generateTodoDisplay, bind, getRecent, ret. cbn [todos].
  assert (Hlen : length (front ++ [lastTodo]) = n).
  { rewrite length_app. simpl. unfold n. lia. }
  rewrite Hlen. change (n =? 0) with false. cbn [fst]. fold recent.
  rewrite forEach_displayStep, itemLines_app. cbn [itemLines Nat.add].
  rewrite unlines_app. unfold itemLine.
  replace (length front =? n - 1) with true
    by (symmetry; apply Nat.eqb_eq; unfold n; lia).
  unfold Js.trim. rewrite string_app_assoc, trimStart_header.
  set (F := unlines (itemLines recent n 0 front)).
  set (box := match status lastTodo with completed => checkedBox | _ => emptyBox end).
  set (styled := styledContent recent lastTodo).
  replace (header ++ Js.nl ++ F ++ (lastBranch ++ " " ++ box ++ " " ++ styled) ++ Js.nl)
    with (((header ++ Js.nl ++ F ++ lastBranch ++ " ") ++ box ++ " " ++ styled) ++ Js.nl)
    by (now rewrite !string_app_assoc).
  rewrite trimEnd_nl. unfold box. rewrite trimEnd_after_box.
  now rewrite !string_app_assoc.
Qed.

Lemma itemLines_no_line_feed (recent : option string) (n index : nat) (l : list TodoItem) :
  (forall t, In t l -> hasLineFeed (content t) = false) ->
  forall x, In x (itemLines recent n index l) -> hasLineFeed x = false.
Proof.
  revert index. induction l as [|t l IH]; intros index Hl x Hx; [destruct Hx|].
  destruct Hx as [<-|Hx].
  - apply itemLine_no_line_feed. apply Hl. now left.
  - apply (IH (S index)); [|exact Hx]. intros t' Ht'. apply Hl. now right.
Qed.

(** C8, as the code has it.  For a non-empty list none of whose contents has
    a line feed in it, the display is the header line followed by exactly
    one line per item, in the order of the list.  The line of the last item,
    and only it, starts with the terminal branch; the others start with the
    continuing branch.  After the branch comes the checked box for a
    completed item and the empty box for a pending or in-progress one, then
    the styled content (with the white space at the very end of the display
    trimmed off). *)
Theorem generateTodoDisplay_lines (params : TodoWriteParams) (st : ModuleState) :
  todos params <> [] ->
  (forall t, In t (todos params) -> hasLineFeed (content t) = false) ->
  exists ls : list string,
    Js.lines (fst (generateTodoDisplay params st)) = header :: ls
    /\ length ls = length (todos params)
    /\ forall i t, todos params !! i = Some t ->
         ls !! i =
         Some ((if i =? length (todos params) - 1 then lastBranch else branch)
               ++ " "
               ++ (match status t with completed => checkedBox | _ => emptyBox end)
               ++ (if i =? length (todos params) - 1
                   then Js.trimEnd (" " ++ styledContent (mostRecentlyCompletedId st) t)
                   else " " ++ styledContent (mostRecentlyCompletedId st) t)).
Proof.
  destruct params as [l]. cbn [todos]. intros Hne Hcontent.
  destruct (exists_last Hne) as (front & lastTodo & ->).
  set (recent := mostRecentlyCompletedId st).
  assert (Hn : length (front ++ [lastTodo]) = S (length front)).
  { rewrite length_app. simpl. lia. }
  rewrite Hn. replace (S (length front) - 1) with (length front) by lia.
  set (final := lastBranch ++ " "
        ++ (match status lastTodo with completed => checkedBox | _ => emptyBox end)
        ++ Js.trimEnd (" " ++ styledContent recent lastTodo)).
  exists (itemLines recent (S (length front)) 0 front ++ [final])%list.
  split; [|split].
  - rewrite generateTodoDisplay_shape. fold recent. fold final.
    rewrite lines_app_nl by reflexivity. f_equal.
    apply lines_unlines.
    + apply itemLines_no_line_feed. intros t Ht. apply Hcontent.
      apply in_or_app. now left.
    + unfold final. rewrite !hasLineFeed_app.
      rewrite hasLineFeed_trimEnd.
      * now destruct (status lastTodo).
      * rewrite hasLineFeed_app. cbn [hasLineFeed orb].
        apply styledContent_no_line_feed, Hcontent.
        apply in_or_app. right. now left.
  - rewrite length_app, itemLines_length. simpl. lia.
  - intros i t Hi.
    destruct (Nat.lt_trichotomy i (length front)) as [Hlt|[->|Hgt]].
    + rewrite lookup_app_l in Hi by exact Hlt.
      rewrite lookup_app_l by (now rewrite itemLines_length).
      rewrite (itemLines_lookup _ _ _ _ _ _ Hi). cbn [Nat.add].
      unfold itemLine. replace (S (length front) - 1) with (length front) by lia.
      apply Nat.lt_neq, Nat.eqb_neq in Hlt. now rewrite Hlt.
    + rewrite lookup_app_r in Hi by lia. rewrite Nat.sub_diag in Hi.
      injection Hi as <-.
      rewrite lookup_app_r by (rewrite itemLines_length; lia).
      rewrite itemLines_length, Nat.sub_diag, Nat.eqb_refl. reflexivity.
    + apply lookup_lt_Some in Hi. rewrite Hn in Hi. lia.
Qed.

(** The two branches differ, so a line starts with one of them only. *)
Lemma branches_differ (s : string) :
  String.prefix lastBranch (branch ++ s) = false
  /\ String.prefix branch (lastBranch ++ s) = false.
Proof. split; reflexivity. Qed.

(** Three items, the last pending with blanks at its end. *)
Lemma generateTodoDisplay_lines_witness :
  exists ls : list string,
    Js.lines (fst (generateTodoDisplay
                     (mkParams [mkTodo "1" "Design" completed;
                                mkTodo "2" "Build" in_progress;
                                mkTodo "3" "Ship  " pending])
                     (mkState [] (Some "1"))))
    = header :: ls
    /\ length ls = 3
    /\ ls !! 0 = Some (branch ++ " " ++ checkedBox ++ " "
                       ++ styledContent (Some "1") (mkTodo "1" "Design" completed))
    /\ ls !! 2 = Some (lastBranch ++ " " ++ emptyBox ++ " Ship").
Proof.
  destruct (generateTodoDisplay_lines
              (mkParams [mkTodo "1" "Design" completed;
                         mkTodo "2" "Build" in_progress;
                         mkTodo "3" "Ship  " pending])
              (mkState [] (Some "1")))
    as (ls & Hlines & Hlen & Hat).
  - discriminate.
  - intros t [<-|[<-|[<-|[]]]]; reflexivity.
  - exists ls. split; [exact Hlines|]. split; [exact Hlen|]. split.
    + exact (Hat 0 _ eq_refl).
    + exact (Hat 2 _ eq_refl).
Defined.

(** C8 as stated fails: a content may hold a line feed, and the display then
    has more lines than items.  The submission below passes validation; it
    has one item, and its display has two lines after the header, the second
    without any branch. *)
Lemma generateTodoDisplay_content_line_feed :
  validateToolParams (fun _ => None)
    (eraseParams (mkParams [mkTodo "a" ("x" ++ Js.nl ++ "y") pending])) = None
  /\ Js.lines (fst (generateTodoDisplay
                      (mkParams [mkTodo "a" ("x" ++ Js.nl ++ "y") pending]) initialState))
     = [header; lastBranch ++ " " ++ emptyBox ++ " x"; "y"]
  /\ ~ (exists ls : list string,
          Js.lines (fst (generateTodoDisplay
                           (mkParams [mkTodo "a" ("x" ++ Js.nl ++ "y") pending])
                           initialState))
          = header :: ls
          /\ length ls = length [mkTodo "a" ("x" ++ Js.nl ++ "y") pending]).
Proof.
  split; [reflexivity|]. split; [reflexivity|].
  intros (ls & Hlines & Hlen).
  vm_compute in Hlines. injection Hlines as <-. discriminate Hlen.
Qed.

(** * Further properties of the module *)

(** ** getDescription *)

Lemma recordGet_set (acc : CountRecord) (key key' : string) (value : nat) :
  recordGet (recordSet acc key value) key'
  = if String.eqb key key' then Some value else recordGet acc key'.
Proof.
  induction acc as [|[k v] rest IH]; cbn [recordSet recordGet].
  - reflexivity.
  - destruct (String.eqb_spec k key) as [->|Hk]; cbn [recordGet].
    + destruct (String.eqb key key'); reflexivity.
    + rewrite IH. destruct (String.eqb_spec k key') as [->|Hk'];
        [|reflexivity].
      destruct (String.eqb_spec key key') as [->|]; [contradiction|reflexivity].
Qed.

Lemma statusName_inj (a b : Status) : statusName a = statusName b -> a = b.
Proof. destruct a, b; simpl; intros H; try reflexivity; discriminate H. Qed.

(** After the [reduce], the count under the name of a status is the count
    before plus the number of items of that status. *)
Lemma fold_countStep (l : list TodoItem) (acc : CountRecord) (s : Status) :
  orZero (recordGet (fold_left countStep l acc) (statusName s))
  = orZero (recordGet acc (statusName s)) + countStatus l s.
Proof.
  unfold countStatus. revert acc.
  induction l as [|t l IH]; intros acc; cbn [fold_left List.map count_occ].
  - lia.
  - rewrite IH. unfold countStep. rewrite recordGet_set.
    destruct (Status_eq_dec (status t) s) as [->|Hne].
    + rewrite String.eqb_refl. simpl. lia.
    + destruct (String.eqb_spec (statusName (status t)) (statusName s)) as [He|_].
      * apply statusName_inj in He. contradiction.
      * lia.
Qed.

Lemma description_count (l : list TodoItem) :
  orZero (recordGet (fold_left countStep l []) "in_progress") = countStatus l in_progress
  /\ orZero (recordGet (fold_left countStep l []) "pending") = countStatus l pending
  /\ orZero (recordGet (fold_left countStep l []) "completed") = countStatus l completed.
Proof.
  repeat split.
  - exact (fold_countStep l [] in_progress).
  - exact (fold_countStep l [] pending).
  - exact (fold_countStep l [] completed).
Qed.

Lemma countStatus_total (l : list TodoItem) :
  countStatus l completed + countStatus l in_progress + countStatus l pending
  = length l.
Proof.
  unfold countStatus. induction l as [|t l IH]; [reflexivity|].
  cbn [List.map count_occ length].
  destruct (status t); simpl; lia.
Qed.

(** X1. The description counts the items exactly: it names the length of
    the list and, in the order in progress, pending, completed, the number
    of items of each status. *)
Theorem getDescription_counts (params : TodoWriteParams) :
  getDescription params
  = "ðŸ“‹ Managing " ++ Js.ofNat (length (todos params)) ++ " tasks: "
      ++ Js.ofNat (countStatus (todos params) in_progress) ++ " in progress, "
      ++ Js.ofNat (countStatus (todos params) pending) ++ " pending, "
      ++ Js.ofNat (countStatus (todos params) completed) ++ " completed".
Proof.
  unfold getDescription. destruct (description_count (todos params)) as (-> & -> & ->). reflexivity.
Qed.

(** The description of the test suite. *)
Example getDescription_example :
  getDescription (mkParams [mkTodo "task1" "Task 1" completed;
                            mkTodo "task2" "Task 2" in_progress;
                            mkTodo "task3" "Task 3" pending])
  = "ðŸ“‹ Managing 3 tasks: 1 in progress, 1 pending, 1 completed".
Proof. reflexivity. Qed.

(** X2. The summary and the description report the same three counts, and
    these add up to the number of items they both give as the total. *)
Theorem summary_and_description_agree (params : TodoWriteParams) :
  exists c i p : nat,
    c + i + p = length (todos params)
    /\ generateSummary params
       = Js.ofNat (c + i + p) ++ " total tasks: " ++ Js.ofNat c ++ " completed, "
           ++ Js.ofNat i ++ " in progress, " ++ Js.ofNat p ++ " pending"
    /\ getDescription params
       = "ðŸ“‹ Managing " ++ Js.ofNat (c + i + p) ++ " tasks: " ++ Js.ofNat i
           ++ " in progress, " ++ Js.ofNat p ++ " pending, "
           ++ Js.ofNat c ++ " completed".
Proof.
  exists (countStatus (todos params) completed),
         (countStatus (todos params) in_progress),
         (countStatus (todos params) pending).
  rewrite countStatus_total. split; [reflexivity|]. split.
  - unfold generateSummary, countStatus. now rewrite !filter_status_count.
  - unfold getDescription.
    destruct (description_count (todos params)) as (-> & -> & ->). reflexivity.
Qed.

(** ** What the validator accepts *)

(** What is left of [validateToolParams] when it returns nothing. *)
Lemma validate_none_iff (schemaValidate : Any.TodoWriteParams -> option string)
    (params : Any.TodoWriteParams) :
  validateToolParams schemaValidate params = None
  <-> schemaValidate params = None
      /\ exists items, Any.todos params = Any.Array items
           /\ items <> []
           /\ violationsOfItems 0 items = []
           /\ countInProgress items <= 1
           /\ NoDup (List.map Any.id items).
Proof.
  unfold validateToolParams.
  destruct (schemaValidate params) as [errors|].
  { split; [discriminate|]. intros [H _]. discriminate H. }
  destruct (Any.todos params) as [items|v].
  2:{ split; [discriminate|]. intros (_ & items & H & _). discriminate H. }
  destruct items as [|todo rest].
  { split; [discriminate|]. intros (_ & items & H & Hne & _).
    injection H as <-. contradiction. }
  cbn [length Nat.eqb]. rewrite validateItems_first, filter_in_progress_count.
  rewrite set_size_NoDup.
  split.
  - intros H. split; [reflexivity|]. exists (todo :: rest).
    split; [reflexivity|]. split; [discriminate|].
    destruct (violationsOfItems 0 (todo :: rest)) as [|v vs]; [|discriminate H].
    cbn [head fmap option_fmap option_map] in H.
    destruct (1 <? countInProgress (todo :: rest)) eqn:Hc; [discriminate H|].
    apply Nat.ltb_ge in Hc.
    destruct (bool_decide (NoDup (List.map Any.id (todo :: rest)))) eqn:Hd;
      [|discriminate H].
    apply bool_decide_eq_true in Hd. auto.
  - intros (_ & items & Hitems & _ & Hv & Hc & Hd). injection Hitems as <-.
    rewrite Hv. cbn [head fmap option_fmap option_map].
    apply Nat.ltb_ge in Hc. rewrite Hc.
    now rewrite (bool_decide_eq_true_2 _ Hd).
Qed.

Lemma violationsOfItems_nil (items : list Any.TodoItem) (i : nat) :
  violationsOfItems i items = []
  <-> forall x, In x items ->
        blankField (Any.id x) = false /\ blankField (Any.content x) = false
        /\ validStatus (Any.status x) = true.
Proof.
  revert i. induction items as [|x items IH]; intros i; cbn [violationsOfItems].
  - split; [intros _ y []|reflexivity].
  - unfold violationsOfItem. split.
    + intros H y [<-|Hy].
      * destruct (blankField (Any.id x)); [discriminate H|].
        destruct (blankField (Any.content x)); [discriminate H|].
        destruct (validStatus (Any.status x)); [auto|discriminate H].
      * destruct (blankField (Any.id x)); [discriminate H|].
        destruct (blankField (Any.content x)); [discriminate H|].
        destruct (validStatus (Any.status x)); [|discriminate H].
        apply (proj1 (IH (S i)) H y Hy).
    + intros H. destruct (H x (or_introl eq_refl)) as (-> & -> & ->).
      cbn [app]. apply IH. intros y Hy. apply H. now right.
Qed.

Lemma validStatus_name (s : Status) : validStatus (Any.Str (statusName s)) = true.
Proof. now destruct s. Qed.

(** An item that passes the three checks is a typed item. *)
Lemma valid_item_typed (x : Any.TodoItem) :
  blankField (Any.id x) = false -> blankField (Any.content x) = false ->
  validStatus (Any.status x) = true ->
  exists t, x = erase t.
Proof.
  destruct x as [[| |?|?|i] [| |?|?|c] [| |?|?|s]]; cbn [Any.id Any.content Any.status];
    intros Hi Hc Hs; try discriminate.
  cbn [validStatus] in Hs. apply bool_decide_eq_true in Hs.
  destruct Hs as [-> | [-> | ->]].
  - now exists (mkTodo i c pending).
  - now exists (mkTodo i c in_progress).
  - now exists (mkTodo i c completed).
Qed.

Lemma valid_items_typed (items : list Any.TodoItem) :
  (forall x, In x items ->
     blankField (Any.id x) = false /\ blankField (Any.content x) = false
     /\ validStatus (Any.status x) = true) ->
  exists l, items = List.map erase l.
Proof.
  induction items as [|x items IH]; intros H.
  - now exists [].
  - destruct (H x (or_introl eq_refl)) as (Hi & Hc & Hs).
    destruct (valid_item_typed x Hi Hc Hs) as [t ->].
    destruct IH as [l ->]. { intros y Hy. apply H. now right. }
    now exists (t :: l).
Qed.

Lemma countInProgress_erase (l : list TodoItem) :
  countInProgress (List.map erase l) = countStatus l in_progress.
Proof.
  unfold countStatus. induction l as [|t l IH]; [reflexivity|].
  cbn [List.map countInProgress count_occ]. rewrite IH.
  destruct t as [i c [| |]]; reflexivity.
Qed.

Lemma NoDup_ids_erase (l : list TodoItem) :
  NoDup (List.map Any.id (List.map erase l)) <-> NoDup (List.map id l).
Proof.
  rewrite List.map_map. cbn [erase Any.id].
  rewrite <- (List.map_map id Any.Str).
  assert (Hinj : Inj eq eq Any.Str) by (intros a b H; now injection H).
  apply (NoDup_fmap Any.Str).
Qed.

Lemma erased_items_valid (l : list TodoItem) :
  (forall x, In x (List.map erase l) ->
     blankField (Any.id x) = false /\ blankField (Any.content x) = false
     /\ validStatus (Any.status x) = true)
  <-> (forall t, In t l -> Js.isBlank (id t) = false /\ Js.isBlank (content t) = false).
Proof.
  split.
  - intros H t Ht. destruct (H (erase t) (in_map erase l t Ht)) as (Hi & Hc & _).
    auto.
  - intros H x Hx. apply in_map_iff in Hx as (t & <- & Ht).
    destruct (H t Ht) as [Hi Hc]. cbn [erase Any.id Any.content Any.status blankField].
    now rewrite Hi, Hc, validStatus_name.
Qed.

Lemma accepted_iff_wellFormed
    (schemaValidate : Any.TodoWriteParams -> option string)
    (params : TodoWriteParams) :
  schemaValidate (eraseParams params) = None ->
  (validateToolParams schemaValidate (eraseParams params) = None
   <-> wellFormed (todos params)).
Proof.
  intros Hschema. rewrite validate_none_iff. unfold wellFormed. split.
  - intros (_ & items & Hitems & Hne & Hv & Hc & Hd).
    cbn [eraseParams Any.todos] in Hitems. injection Hitems as <-.
    rewrite countInProgress_erase in Hc. rewrite NoDup_ids_erase in Hd.
    rewrite violationsOfItems_nil, erased_items_valid in Hv.
    repeat split; try assumption; try (now apply Hv).
    intros Hl. apply Hne. now rewrite Hl.
  - intros (Hne & Hfields & Hc & Hd). split; [exact Hschema|].
    exists (List.map erase (todos params)). split; [reflexivity|].
    split. { destruct (todos params); [contradiction|discriminate]. }
    split. { apply violationsOfItems_nil, erased_items_valid, Hfields. }
    split. { now rewrite countInProgress_erase. }
    now apply NoDup_ids_erase.
Qed.

(** X3. On a typed submission, and once the schema check has passed, the
    validator accepts exactly the lists that are not empty, have no blank id
    or content, at most one item in progress and no id twice. *)
Theorem validateToolParams_accepts_iff
    (schemaValidate : Any.TodoWriteParams -> option string)
    (params : TodoWriteParams) :
  schemaValidate (eraseParams params) = None ->
  (validateToolParams schemaValidate (eraseParams params) = None
   <-> wellFormed (todos params)).
Proof. apply accepted_iff_wellFormed. Qed.

Lemma validateToolParams_accepts_iff_witness :
  validateToolParams (fun _ => None)
    (eraseParams (mkParams [mkTodo "1" "Design" completed;
                            mkTodo "2" "Build" in_progress])) = None.
Proof.
  apply (proj2 (validateToolParams_accepts_iff (fun _ => None)
                  (mkParams [mkTodo "1" "Design" completed;
                             mkTodo "2" "Build" in_progress]) eq_refl)).
  split; [discriminate|]. split; [|split].
  - intros t [<-|[<-|[]]]; split; reflexivity.
  - vm_compute. lia.
  - refine (bool_decide_unpack _ _). vm_compute. exact I.
Defined.

(** X4. Whatever arrives, if the validator returns nothing then the
    submission is a list of typed items, a text id, a text content and one
    of the three statuses each, and that list is well formed. *)
Theorem validateToolParams_accepts_typed
    (schemaValidate : Any.TodoWriteParams -> option string)
    (params : Any.TodoWriteParams) :
  validateToolParams schemaValidate params = None ->
  exists typed : TodoWriteParams,
    params = eraseParams typed /\ wellFormed (todos typed).
Proof.
  intros H. apply validate_none_iff in H as (_ & items & Hitems & Hne & Hv & Hc & Hd).
  rewrite violationsOfItems_nil in Hv.
  destruct (valid_items_typed items Hv) as [l ->].
  exists (mkParams l). split.
  - destruct params as [t]. cbn [Any.todos] in Hitems. now subst t.
  - unfold wellFormed. cbn [todos].
    rewrite countInProgress_erase in Hc. rewrite NoDup_ids_erase in Hd.
    rewrite erased_items_valid in Hv.
    repeat split; try assumption; try (now apply Hv).
    intros ->. now apply Hne.
Qed.

Lemma validateToolParams_accepts_typed_witness :
  exists typed : TodoWriteParams,
    Any.mkParams (Any.Array [Any.mkTodo (Any.Str "1") (Any.Str "Design")
                               (Any.Str "pending")])
    = eraseParams typed
    /\ wellFormed (todos typed).
Proof.
  exact (validateToolParams_accepts_typed (fun _ => None)
           (Any.mkParams (Any.Array [Any.mkTodo (Any.Str "1") (Any.Str "Design")
                                       (Any.Str "pending")]))
           eq_refl).
Defined.

(** ** The store across calls *)

(** X5. [execute] never reads the marker left by the call before: from two
    states with the same stored list it returns the same result and leaves
    the same state. *)
Theorem execute_ignores_old_marker (params : TodoWriteParams)
    (current : list TodoItem) (m1 m2 : option string) :
  execute params (mkState current m1) = execute params (mkState current m2).
Proof.
  unfold execute, tryBlock, updateStore, generateTodoDisplay, bind,
    getCurrent, getRecent, setCurrent, setRecent, ret.
  cbn [currentTodos mostRecentlyCompletedId].
  destruct (List.find _ current) as [p|]; [|reflexivity].
  destruct (List.find _ (todos params)); reflexivity.
Qed.

(** A marker that is set names an item in progress before the call and an
    item completed in the candidate. *)
Lemma marker_some_inv (params : TodoWriteParams) (st : ModuleState) (x : string) :
  mostRecentlyCompletedId (stateAfter params st) = Some x ->
  exists a b, In a (currentTodos st) /\ status a = in_progress
              /\ In b (todos params) /\ id b = id a /\ status b = completed
              /\ x = id a.
Proof.
  rewrite execute_marker. unfold priorInProgress.
  destruct (List.find _ (currentTodos st)) as [a|] eqn:Ha; [|discriminate].
  destruct (List.find _ (todos params)) as [b|] eqn:Hb; [|discriminate].
  intros H. injection H as <-.
  apply find_some in Ha as [Ha Hsa]. apply Status_eqb_eq in Hsa.
  apply find_completes in Hb as (Hb & Hid & Hsb).
  exists a, b. repeat split; assumption.
Qed.

(** X6. After every [execute], a marker that is set is the id of a
    completed item of the list now stored. *)
Theorem marker_names_completed_item (params : TodoWriteParams) (st : ModuleState)
    (x : string) :
  mostRecentlyCompletedId (stateAfter params st) = Some x ->
  exists t, In t (currentTodos (stateAfter params st))
            /\ id t = x /\ status t = completed.
Proof.
  intros H. apply marker_some_inv in H as (a & b & _ & _ & Hb & Hid & Hsb & ->).
  rewrite execute_currentTodos. exists b. auto.
Qed.

Lemma marker_names_completed_item_witness :
  exists t,
    In t (currentTodos
            (stateAfter (mkParams [mkTodo "a" "A" completed; mkTodo "b" "B" in_progress])
               (mkState [mkTodo "a" "A" in_progress; mkTodo "b" "B" pending] None)))
    /\ id t = "a" /\ status t = completed.
Proof.
  exact (marker_names_completed_item
           (mkParams [mkTodo "a" "A" completed; mkTodo "b" "B" in_progress])
           (mkState [mkTodo "a" "A" in_progress; mkTodo "b" "B" pending] None)
           "a" eq_refl).
Defined.

(** In a list with at most one item of a status, two items of that status
    are the same item. *)
Lemma countStatus_le_1_unique (l : list TodoItem) (s : Status) (a b : TodoItem) :
  countStatus l s <= 1 -> In a l -> In b l -> status a = s -> status b = s -> a = b.
Proof.
  unfold countStatus. intros Hc Ha Hb Hsa Hsb.
  assert (Hpos : forall x l', In x l' -> status x = s ->
            1 <= count_occ Status_eq_dec (List.map status l') s).
  { intros x l' Hx Hsx. apply (count_occ_In Status_eq_dec).
    rewrite <- Hsx. now apply in_map. }
  induction l as [|t l IH]; [destruct Ha|].
  cbn [List.map count_occ] in Hc.
  destruct (Status_eq_dec (status t) s) as [Ht|Ht].
  - destruct Ha as [<-|Ha], Hb as [<-|Hb]; try reflexivity.
    + pose proof (Hpos b l Hb Hsb). lia.
    + pose proof (Hpos a l Ha Hsa). lia.
    + pose proof (Hpos a l Ha Hsa). lia.
  - destruct Ha as [<-|Ha]; [contradiction|].
    destruct Hb as [<-|Hb]; [contradiction|]. now apply IH.
Qed.

(** X7. When the stored list has at most one item in progress, the marker
    after [execute] is [x] exactly when an item in progress in the stored
    list has id [x] and the candidate holds a completed item with that id. *)
Theorem marker_set_iff_transition (params : TodoWriteParams) (st : ModuleState)
    (x : string) :
  countStatus (currentTodos st) in_progress <= 1 ->
  (mostRecentlyCompletedId (stateAfter params st) = Some x
   <-> exists a b, In a (currentTodos st) /\ status a = in_progress
                   /\ In b (todos params) /\ id b = id a /\ status b = completed
                   /\ x = id a).
Proof.
  intros Hc. split; [apply marker_some_inv|].
  intros (a & b & Ha & Hsa & Hb & Hid & Hsb & ->).
  destruct (priorInProgress (currentTodos st)) as [p|] eqn:Hp.
  - pose proof Hp as Hp'. unfold priorInProgress in Hp'.
    apply find_some in Hp' as [Hpin Hsp]. apply Status_eqb_eq in Hsp.
    assert (p = a) by (eapply countStatus_le_1_unique; eauto). subst p.
    apply (marker_set params st a Hp). exists b. repeat split; assumption.
  - unfold priorInProgress in Hp.
    pose proof (find_none _ _ Hp a Ha) as Hf. cbn beta in Hf.
    rewrite Hsa in Hf. discriminate Hf.
Qed.

Lemma marker_set_iff_transition_witness :
  mostRecentlyCompletedId
    (stateAfter (mkParams [mkTodo "a" "A" completed; mkTodo "b" "B" in_progress])
       (mkState [mkTodo "a" "A" in_progress; mkTodo "b" "B" pending] (Some "z")))
  = Some "a".
Proof.
  apply (proj2 (marker_set_iff_transition
                  (mkParams [mkTodo "a" "A" completed; mkTodo "b" "B" in_progress])
                  (mkState [mkTodo "a" "A" in_progress; mkTodo "b" "B" pending] (Some "z"))
                  "a" ltac:(vm_compute; lia))).
  exists (mkTodo "a" "A" in_progress), (mkTodo "a" "A" completed).
  simpl. repeat split; auto.
Defined.

(** X8. [getCurrentTodos] changes nothing and returns the stored list: the
    candidate of the last [execute], in its order, and the empty list after
    [clearTodos]. *)
Theorem getCurrentTodos_after (params : TodoWriteParams) (st : ModuleState) :
  getCurrentTodos (stateAfter params st) = (todos params, stateAfter params st)
  /\ fst (getCurrentTodos (snd (clearTodos st))) = []
  /\ fst (getCurrentTodos (snd (clearTodos (stateAfter params st)))) = [].
Proof.
  split; [|split; reflexivity].
  rewrite getCurrentTodos_reads. now rewrite execute_currentTodos.
Qed.

(** X9. A candidate the validator accepts leaves a well-formed stored list:
    after [execute] the store is not empty, has at most one item in
    progress and no id twice. *)
Theorem execute_accepted_wellFormed
    (schemaValidate : Any.TodoWriteParams -> option string)
    (params : TodoWriteParams) (st : ModuleState) :
  validateToolParams schemaValidate (eraseParams params) = None ->
  wellFormed (currentTodos (stateAfter params st)).
Proof.
  intros H. rewrite execute_currentTodos.
  assert (Hs : schemaValidate (eraseParams params) = None).
  { now apply validate_none_iff in H as [Hs _]. }
  now apply (accepted_iff_wellFormed schemaValidate params Hs).
Qed.

Lemma execute_accepted_wellFormed_witness :
  wellFormed
    (currentTodos
       (stateAfter (mkParams [mkTodo "1" "Design" completed;
                              mkTodo "2" "Build" in_progress])
          initialState)).
Proof.
  exact (execute_accepted_wellFormed (fun _ => None)
           (mkParams [mkTodo "1" "Design" completed; mkTodo "2" "Build" in_progress])
           initialState eq_refl).
Defined.

(** ** The display as joined lines *)

Lemma join_unlines (ls : list string) (x : string) :
  Js.join Js.nl (ls ++ [x]) = unlines ls ++ x.
Proof.
  induction ls as [|l ls IH]; [reflexivity|].
  cbn [app unlines]. rewrite !string_app_assoc, <- IH.
  destruct ls; reflexivity.
Qed.

Lemma generateTodoDisplay_state (params : TodoWriteParams) (st : ModuleState) :
  snd (generateTodoDisplay params st) = st.
Proof.
  unfold generateTodoDisplay, bind, getRecent, ret.
  now destruct (length (todos params) =? 0).
Qed.

Lemma trimEnd_last_line (recent : option string) (n : nat) (t : TodoItem) :
  Js.trimEnd (itemLine recent (S n) n t)
  = lastBranch ++ " "
      ++ (match status t with completed => checkedBox | _ => emptyBox end)
      ++ Js.trimEnd (" " ++ styledContent recent t).
Proof.
  unfold itemLine. replace (n =? S n - 1) with true
    by (symmetry; apply Nat.eqb_eq; lia).
  rewrite <- (string_app_assoc lastBranch " ").
  rewrite trimEnd_after_box. now rewrite string_app_assoc.
Qed.

(** X10. The display of a list with items is the header and one line per
    item, in the order of the list, joined by line feeds; of all the white
    space in it only that at the end of the last line is removed. *)
Theorem generateTodoDisplay_joined_lines (front : list TodoItem) (lastTodo : TodoItem)
    (st : ModuleState) :
  generateTodoDisplay (mkParams (front ++ [lastTodo])) st
  = (Js.join Js.nl
       (header
        :: itemLines (mostRecentlyCompletedId st) (S (length front)) 0 front
           ++ [Js.trimEnd (itemLine (mostRecentlyCompletedId st) (S (length front))
                             (length front) lastTodo)]),
     st).
Proof.
  rewrite (surjective_pairing (generateTodoDisplay _ st)).
  rewrite generateTodoDisplay_state, generateTodoDisplay_shape. f_equal.
  rewrite trimEnd_last_line.
  set (F := itemLines (mostRecentlyCompletedId st) (S (length front)) 0 front).
  rewrite (app_comm_cons F _ header), join_unlines.
  cbn [unlines]. now rewrite !string_app_assoc.
Qed.

(** ** What the display shows of each item *)

Lemma occursIn_app_l (x s a : string) : occursIn x s -> occursIn x (a ++ s).
Proof.
  intros (u & v & ->). exists (a ++ u), v. now rewrite string_app_assoc.
Qed.

Lemma occursIn_app_r (x s b : string) : occursIn x s -> occursIn x (s ++ b).
Proof.
  intros (u & v & ->). exists u, (v ++ b). now rewrite !string_app_assoc.
Qed.

Lemma occursIn_unlines (l : string) (ls : list string) :
  In l ls -> occursIn l (unlines ls).
Proof.
  induction ls as [|x ls IH]; intros Hin; [destruct Hin|].
  cbn [unlines]. destruct Hin as [->|Hin].
  - exists EmptyString, (Js.nl ++ unlines ls). reflexivity.
  - apply occursIn_app_l, occursIn_app_l, IH, Hin.
Qed.

(** [trimEnd] keeps a prefix. *)
Lemma trimEnd_prefix (s : string) : exists w, s = Js.trimEnd s ++ w.
Proof.
  induction s as [|a r [w IH]]; [now exists EmptyString|].
  cbn [Js.trimEnd]. destruct (Js.isBlank (String a r)).
  - now exists (String a r).
  - exists w. cbn [String.append]. now rewrite <- IH.
Qed.

(** The styling of an item in progress or completed ends in a letter, so
    [trimEnd] leaves it whole. *)
Lemma trimEnd_styled (recent : option string) (t : TodoItem) :
  status t <> pending ->
  Js.trimEnd (" " ++ styledContent recent t) = " " ++ styledContent recent t.
Proof.
  assert (H : forall X : string,
            Js.trimEnd (X ++ "[0m") = X ++ "[0m").
  { intros X. change "[0m" with ("[0" ++ String "m" EmptyString).
    rewrite <- string_app_assoc, trimEnd_solid by reflexivity. reflexivity. }
  intros Hs. unfold styledContent.
  destruct (status t); [contradiction| |destruct (isRecent (id t) recent)];
    rewrite <- !string_app_assoc; apply H.
Qed.

(** The box of an item and its styled content occur in the display. *)
Lemma item_occurs (params : TodoWriteParams) (st : ModuleState) (t : TodoItem) :
  In t (todos params) ->
  occursIn (statusIcon (status t)
              ++ Js.trimEnd (" " ++ styledContent (mostRecentlyCompletedId st) t))
    (fst (generateTodoDisplay params st)).
Proof.
  destruct params as [l]. cbn [todos]. intros Hin.
  assert (Hne : l <> []) by (intros ->; destruct Hin).
  destruct (exists_last Hne) as (front & lastTodo & ->).
  rewrite generateTodoDisplay_shape.
  set (recent := mostRecentlyCompletedId st).
  assert (Hicon : forall s, statusIcon s
                  = match s with completed => checkedBox | _ => emptyBox end)
    by (now intros []).
  apply in_app_or in Hin as [Hin|[<-|[]]].
  - apply list_elem_of_In, list_elem_of_lookup in Hin as [i Hi].
    pose proof (itemLines_lookup recent (S (length front)) 0 front i t Hi) as Hline.
    assert (Hin' : In (itemLine recent (S (length front)) (0 + i) t)
                     (itemLines recent (S (length front)) 0 front)).
    { apply list_elem_of_In, list_elem_of_lookup. eauto. }
    apply occursIn_app_l, occursIn_app_l, occursIn_app_r.
    apply occursIn_unlines in Hin'. destruct Hin' as (u & v & Hunl).
    destruct (trimEnd_prefix (" " ++ styledContent recent t)) as [w Hw].
    rewrite Hunl, Hicon. unfold itemLine. rewrite Hw at 2.
    exists (u ++ (if 0 + i =? S (length front) - 1 then lastBranch else branch) ++ " "),
           (w ++ v).
    now rewrite !string_app_assoc.
  - rewrite Hicon.
    exists (header ++ Js.nl
            ++ unlines (itemLines recent (S (length front)) 0 front)
            ++ lastBranch ++ " "), EmptyString.
    rewrite !string_app_assoc, string_app_empty_r. reflexivity.
Qed.

(** X11. Every item of the list shows in the display: its box followed by a
    blank and its styled content.  An item in progress or completed shows
    whole; of a pending item the white space at the end of the content may
    be missing (it is, when the item is the last). *)
Theorem every_item_displayed (params : TodoWriteParams) (st : ModuleState)
    (t : TodoItem) :
  In t (todos params) ->
  occursIn (statusIcon (status t)
              ++ Js.trimEnd (" " ++ styledContent (mostRecentlyCompletedId st) t))
    (fst (generateTodoDisplay params st))
  /\ (status t <> pending ->
      occursIn (statusIcon (status t) ++ " "
                  ++ styledContent (mostRecentlyCompletedId st) t)
        (fst (generateTodoDisplay params st))).
Proof.
  intros Hin. split; [now apply item_occurs|].
  intros Hs. rewrite <- (trimEnd_styled _ t Hs). now apply item_occurs.
Qed.

Lemma every_item_displayed_witness :
  occursIn (emptyBox ++ " " ++ Js.ESC ++ "[34mWrite documentation" ++ Js.ESC ++ "[0m")
    (fst (generateTodoDisplay
            (mkParams [mkTodo "task1" "Complete implementation" completed;
                       mkTodo "task2" "Write documentation" in_progress;
                       mkTodo "task3" "Review code" pending])
            initialState)).
Proof.
  apply (proj2 (every_item_displayed
                  (mkParams [mkTodo "task1" "Complete implementation" completed;
                             mkTodo "task2" "Write documentation" in_progress;
                             mkTodo "task3" "Review code" pending])
                  initialState (mkTodo "task2" "Write documentation" in_progress)
                  ltac:(simpl; auto))).
  discriminate.
Defined.

(** The display [execute] returns is rendered from the state it leaves. *)
Lemma execute_display (params : TodoWriteParams) (st : ModuleState) :
  returnDisplay (fst (execute params st))
  = fst (generateTodoDisplay params (stateAfter params st)).
Proof.
  unfold stateAfter, execute, tryBlock, updateStore, generateTodoDisplay, bind,
    getCurrent, getRecent, setCurrent, setRecent, ret.
  destruct (List.find _ (currentTodos st)) as [p|]; simpl.
  - destruct (List.find _ (todos params)); simpl;
      destruct (length (todos params) =? 0); reflexivity.
  - destruct (length (todos params) =? 0); reflexivity.
Qed.

(** X12. The task that was in progress and comes back completed is shown
    in green and struck through in the display of that very call. *)
Theorem completed_transition_highlighted (params : TodoWriteParams)
    (st : ModuleState) (prior t : TodoItem) :
  priorInProgress (currentTodos st) = Some prior ->
  In t (todos params) -> id t = id prior -> status t = completed ->
  occursIn (checkedBox ++ " " ++ Js.ESC ++ "[32m" ++ Js.ESC ++ "[9m" ++ content t
              ++ Js.ESC ++ "[29m" ++ Js.ESC ++ "[0m")
    (returnDisplay (fst (execute params st))).
Proof.
  intros Hp Hin Hid Hs.
  assert (Hm : mostRecentlyCompletedId (stateAfter params st) = Some (id prior)).
  { apply marker_set; [exact Hp|]. exists t. auto. }
  rewrite execute_display.
  pose proof (item_occurs params (stateAfter params st) t Hin) as H.
  rewrite trimEnd_styled in H by (rewrite Hs; discriminate).
  rewrite Hm in H. unfold styledContent, isRecent in H.
  rewrite Hs, Hid, String.eqb_refl in H. exact H.
Qed.

(** The scenario of the test suite: task1 goes from in progress to
    completed. *)
Lemma completed_transition_highlighted_witness :
  occursIn (checkedBox ++ " " ++ Js.ESC ++ "[32m" ++ Js.ESC ++ "[9mTask 1"
              ++ Js.ESC ++ "[29m" ++ Js.ESC ++ "[0m")
    (returnDisplay
       (fst (execute (mkParams [mkTodo "task1" "Task 1" completed;
                                mkTodo "task2" "Task 2" in_progress])
               (mkState [mkTodo "task1" "Task 1" in_progress;
                         mkTodo "task2" "Task 2" pending] None)))).
Proof.
  apply (completed_transition_highlighted
           (mkParams [mkTodo "task1" "Task 1" completed;
                      mkTodo "task2" "Task 2" in_progress])
           (mkState [mkTodo "task1" "Task 1" in_progress;
                     mkTodo "task2" "Task 2" pending] None)
           (mkTodo "task1" "Task 1" in_progress)
           (mkTodo "task1" "Task 1" completed));
    [reflexivity|simpl; auto|reflexivity|reflexivity].
Defined.

(** ** Objects the calls leave alone *)

Lemma spread_length (h h' : Refs.Heap) (a copy : Refs.loc) :
  Refs.spread h a = Some (copy, h') ->
  length (Refs.arrays h') = S (length (Refs.arrays h)).
Proof.
  unfold Refs.spread. intros H.
  destruct (Refs.arrays h !! a) as [refs|]; simpl in H; [|discriminate].
  injection H as <- <-. cbn [Refs.arrays]. rewrite length_app. simpl. lia.
Qed.

Lemma filterArray_spec (keep : TodoItem -> bool) (h h' : Refs.Heap) (a : Refs.loc)
    (kept : list Refs.loc) :
  Refs.filterArray keep h a = Some (kept, h') ->
  Refs.items h' = Refs.items h
  /\ Refs.arrays h' = (Refs.arrays h ++ [kept])%list
  /\ exists elements, Refs.readArray h a = Some elements
       /\ length kept = length (List.filter keep elements).
Proof.
  unfold Refs.filterArray, Refs.readArray. intros H.
  destruct (Refs.arrays h !! a) as [refs|]; simpl in H; [|discriminate].
  destruct (mapM (fun r => Refs.items h !! r) refs) as [elements|] eqn:Hm;
    simpl in H; [|discriminate].
  injection H as <- <-. split; [reflexivity|]. split; [reflexivity|].
  exists elements. split; [simpl; exact Hm|].
  rewrite length_map. apply mapM_Some in Hm.
  induction Hm as [|r t refs elements Hrt Hm IH]; [reflexivity|].
  cbn [combine List.filter snd]. destruct (keep t); simpl; now rewrite IH.
Qed.

Lemma readArray_extend (h h' : Refs.Heap) (added : list (list Refs.loc)) (a : Refs.loc) :
  Refs.items h' = Refs.items h ->
  Refs.arrays h' = (Refs.arrays h ++ added)%list ->
  a < length (Refs.arrays h) ->
  Refs.readArray h' a = Refs.readArray h a.
Proof.
  intros Hi Ha Hlt. unfold Refs.readArray. rewrite Hi, Ha.
  now rewrite lookup_app_l.
Qed.

(** What [Refs.generateSummary] leaves: three more arrays, and the summary
    of the list it read. *)
Lemma generateSummary_spec (h h' : Refs.Heap) (paramsTodos : Refs.loc) (summary : string) :
  Refs.generateSummary h paramsTodos = Some (summary, h') ->
  Refs.items h' = Refs.items h
  /\ (exists added, Refs.arrays h' = (Refs.arrays h ++ added)%list /\ length added = 3)
  /\ exists candidate, Refs.readArray h paramsTodos = Some candidate
       /\ summary = generateSummary (mkParams candidate).
Proof.
  unfold Refs.generateSummary. intros H.
  destruct (Refs.arrays h !! paramsTodos) as [refs|] eqn:Hrefs; simpl in H; [|discriminate].
  pose proof (lookup_lt_Some _ _ _ Hrefs) as Hlt.
  destruct (Refs.filterArray _ h paramsTodos) as [[k1 h1]|] eqn:H1; simpl in H; [|discriminate].
  destruct (Refs.filterArray _ h1 paramsTodos) as [[k2 h2]|] eqn:H2; simpl in H; [|discriminate].
  destruct (Refs.filterArray _ h2 paramsTodos) as [[k3 h3]|] eqn:H3; simpl in H; [|discriminate].
  injection H as <- <-.
  apply filterArray_spec in H1 as (Hi1 & Ha1 & e1 & Hr1 & Hl1).
  apply filterArray_spec in H2 as (Hi2 & Ha2 & e2 & Hr2 & Hl2).
  apply filterArray_spec in H3 as (Hi3 & Ha3 & e3 & Hr3 & Hl3).
  rewrite (readArray_extend h h1 [k1] paramsTodos Hi1 Ha1 Hlt), Hr1 in Hr2.
  injection Hr2 as <-.
  assert (Hlt2 : paramsTodos < length (Refs.arrays h1))
    by (rewrite Ha1, length_app; lia).
  rewrite (readArray_extend h1 h2 [k2] paramsTodos Hi2 Ha2 Hlt2) in Hr3.
  rewrite (readArray_extend h h1 [k1] paramsTodos Hi1 Ha1 Hlt), Hr1 in Hr3.
  injection Hr3 as <-.
  split; [congruence|]. split.
  - exists [k1; k2; k3]. split; [|reflexivity].
    rewrite Ha3, Ha2, Ha1, <- !app_assoc. reflexivity.
  - exists e1. split; [exact Hr1|].
    unfold generateSummary. cbn [todos]. rewrite Hl1, Hl2, Hl3.
    assert (Hlen : length refs = length e1).
    { unfold Refs.readArray in Hr1. rewrite Hrefs in Hr1. simpl in Hr1.
      now apply length_mapM in Hr1. }
    now rewrite Hlen.
Qed.

(** The result of [Refs.execute] is that of [execute] on the lists the
    arrays hold. *)
Lemma execute_refines (paramsTodos : Refs.loc) (s s' : Refs.Store) (h h' : Refs.Heap)
    (result : ToolResult) (current candidate : list TodoItem) :
  Refs.stored s h = Some current ->
  Refs.readArray h paramsTodos = Some candidate ->
  Refs.execute paramsTodos s h = Some (result, s', h') ->
  result = fst (execute (mkParams candidate)
                  (mkState current (Refs.mostRecentlyCompletedId s)))
  /\ Refs.stored s' h' = Some candidate.
Proof.
  intros Hcur Hcand H. unfold Refs.execute in H.
  destruct (Refs.updateStore paramsTodos s h) as [[s1 h1]|] eqn:Hupd;
    cbn [mbind option_bind] in H; [|discriminate].
  destruct (updateStore_refines _ _ _ _ _ _ _ Hcur Hcand Hupd) as [Hstored Hstate].
  pose proof (updateStore_spread _ _ _ _ _ Hupd) as Hsp.
  pose proof (spread_length _ _ _ _ Hsp) as Hlen1.
  apply spread_spec in Hsp as (Hlt & Hcopy & Hitems & _ & _ & Hold & _).
  rewrite (Hold paramsTodos Hlt), Hcand in H. cbn [mbind option_bind] in H.
  destruct (Refs.generateSummary h1 paramsTodos) as [[summary h2]|] eqn:Hsum;
    cbn [mbind option_bind] in H; [|discriminate].
  injection H as <- <- <-.
  apply generateSummary_spec in Hsum as (Hi2 & (added & Ha2 & _) & c & Hc & ->).
  rewrite (Hold paramsTodos Hlt), Hcand in Hc. injection Hc as <-.
  split.
  - unfold execute, tryBlock, bind, ret.
    destruct (updateStore (mkParams candidate) _) as [u st1] eqn:Hu.
    cbn [snd] in Hstate. subst st1.
    destruct (generateTodoDisplay (mkParams candidate) _) as [d st2]. reflexivity.
  - unfold Refs.stored in *. rewrite (readArray_extend h1 h2 added _ Hi2 Ha2); [exact Hstored|].
    rewrite Hcopy, Hlen1. lia.
Qed.

(** X13. Neither [execute] nor [getCurrentTodos] writes to an object that
    exists.  [execute] leaves the items and every array that existed (the
    caller's among them) as they were and adds four arrays, the copy it
    stores and the three its summary filters out; [getCurrentTodos] adds
    the one it returns. *)
Theorem calls_only_allocate :
  (forall paramsTodos s h result s' h',
     Refs.execute paramsTodos s h = Some (result, s', h') ->
     Refs.items h' = Refs.items h
     /\ Refs.currentTodos s' = length (Refs.arrays h)
     /\ exists added, Refs.arrays h' = (Refs.arrays h ++ added)%list
                      /\ length added = 4)
  /\ (forall s h copy h',
       Refs.getCurrentTodos s h = Some (copy, h') ->
       Refs.items h' = Refs.items h
       /\ copy = length (Refs.arrays h)
       /\ exists added, Refs.arrays h' = (Refs.arrays h ++ added)%list
                        /\ length added = 1).
Proof.
  assert (Hspread : forall h a copy h',
            Refs.spread h a = Some (copy, h') ->
            Refs.items h' = Refs.items h /\ copy = length (Refs.arrays h)
            /\ exists refs, Refs.arrays h' = (Refs.arrays h ++ [refs])%list).
  { intros h a copy h' H. unfold Refs.spread in H.
    destruct (Refs.arrays h !! a) as [refs|]; simpl in H; [|discriminate].
    injection H as <- <-. repeat split. now exists refs. }
  split.
  - intros paramsTodos s h result s' h' H. unfold Refs.execute in H.
    destruct (Refs.updateStore paramsTodos s h) as [[s1 h1]|] eqn:Hupd;
      cbn [mbind option_bind] in H; [|discriminate].
    destruct (Refs.readArray h1 paramsTodos); cbn [mbind option_bind] in H; [|discriminate].
    destruct (Refs.generateSummary h1 paramsTodos) as [[summary h2]|] eqn:Hsum;
      cbn [mbind option_bind] in H; [|discriminate].
    injection H as <- <- <-.
    apply updateStore_spread, Hspread in Hupd as (Hi1 & Hc & refs & Ha1).
    apply generateSummary_spec in Hsum as (Hi2 & (added & Ha2 & Hlen) & _).
    split; [congruence|]. split; [exact Hc|].
    exists (refs :: added). split; [|simpl; now rewrite Hlen].
    rewrite Ha2, Ha1, <- app_assoc. reflexivity.
  - intros s h copy h' H. unfold Refs.getCurrentTodos in H.
    apply Hspread in H as (Hi & Hc & refs & Ha).
    split; [exact Hi|]. split; [exact Hc|]. now exists [refs].
Qed.

Lemma calls_only_allocate_witness :
  Refs.items
    (Refs.mkHeap [mkTodo "a" "A" pending; mkTodo "b" "B" completed]
       [[]; [0; 1]; [0; 1]; [1]; []; [0]])
  = Refs.items (Refs.mkHeap [mkTodo "a" "A" pending; mkTodo "b" "B" completed] [[]; [0; 1]])
  /\ Refs.currentTodos (Refs.mkStore 2 None) = 2
  /\ exists added,
       Refs.arrays
         (Refs.mkHeap [mkTodo "a" "A" pending; mkTodo "b" "B" completed]
            [[]; [0; 1]; [0; 1]; [1]; []; [0]])
       = ([[]; [0; 1]] ++ added)%list
       /\ length added = 4.
Proof.
  exact (proj1 calls_only_allocate 1 (Refs.mkStore 0 None)
           (Refs.mkHeap [mkTodo "a" "A" pending; mkTodo "b" "B" completed] [[]; [0; 1]])
           (fst (execute (mkParams [mkTodo "a" "A" pending; mkTodo "b" "B" completed])
                   initialState))
           (Refs.mkStore 2 None)
           (Refs.mkHeap [mkTodo "a" "A" pending; mkTodo "b" "B" completed]
              [[]; [0; 1]; [0; 1]; [1]; []; [0]])
           eq_refl).
Defined.

(** X14. The array [getCurrentTodos] returned is not a view of the store:
    after a later [execute] it still holds the list stored when it was
    taken, while the store holds the new candidate. *)
Theorem snapshot_survives_execute (s s' : Refs.Store) (h h1 h2 : Refs.Heap)
    (copy paramsTodos : Refs.loc) :
  Refs.getCurrentTodos s h = Some (copy, h1) ->
  Refs.updateStore paramsTodos s h1 = Some (s', h2) ->
  Refs.readArray h2 copy = Refs.stored s h
  /\ Refs.stored s' h2 = Refs.readArray h1 paramsTodos.
Proof.
  intros Hsnap Hupd. unfold Refs.getCurrentTodos in Hsnap.
  pose proof (spread_length _ _ _ _ Hsnap) as Hlen.
  apply spread_spec in Hsnap as (_ & Hcopy & _ & _ & _ & _ & Hread).
  apply updateStore_spread in Hupd.
  apply spread_spec in Hupd as (_ & _ & _ & _ & _ & Hold & Hnew).
  split.
  - rewrite Hold by lia. exact Hread.
  - exact Hnew.
Qed.

Lemma snapshot_survives_execute_witness :
  Refs.readArray
    (Refs.mkHeap [mkTodo "a" "A" pending; mkTodo "b" "B" completed]
       [[0]; [1]; [0]; [1]]) 2
  = Refs.stored (Refs.mkStore 0 None)
      (Refs.mkHeap [mkTodo "a" "A" pending; mkTodo "b" "B" completed] [[0]; [1]])
  /\ Refs.stored (Refs.mkStore 3 None)
       (Refs.mkHeap [mkTodo "a" "A" pending; mkTodo "b" "B" completed]
          [[0]; [1]; [0]; [1]])
     = Refs.readArray
         (Refs.mkHeap [mkTodo "a" "A" pending; mkTodo "b" "B" completed]
            [[0]; [1]; [0]]) 1.
Proof.
  exact (snapshot_survives_execute (Refs.mkStore 0 None) (Refs.mkStore 3 None)
           (Refs.mkHeap [mkTodo "a" "A" pending; mkTodo "b" "B" completed] [[0]; [1]])
           (Refs.mkHeap [mkTodo "a" "A" pending; mkTodo "b" "B" completed] [[0]; [1]; [0]])
           (Refs.mkHeap [mkTodo "a" "A" pending; mkTodo "b" "B" completed]
              [[0]; [1]; [0]; [1]])
           2 1 eq_refl eq_refl).
Defined.

(** ** Edges *)

(** X15. [execute] itself takes the empty list, which the validator turns
    away: from every state it then leaves the store empty and the marker
    unset, as the module starts, and returns the "No todos" display and a
    summary of zeros. *)
Theorem execute_empty_list (st : ModuleState) :
  execute (mkParams []) st
  = ({| llmContent :=
          Js.stringify
            (successPayload (mkParams [])
               "0 total tasks: 0 completed, 0 in progress, 0 pending");
        returnDisplay := emptyDisplay |},
     initialState).
Proof.
  unfold execute, tryBlock, updateStore, generateTodoDisplay, bind,
    getCurrent, getRecent, setCurrent, setRecent, ret.
  destruct (List.find _ (currentTodos st)); reflexivity.
Qed.

(** The loop goes past the items it has nothing to say about. *)
Lemma validateItems_app (good rest : list Any.TodoItem) (i : nat) :
  validateItems i good = None ->
  validateItems i (good ++ rest) = validateItems (i + length good) rest.
Proof.
  revert i. induction good as [|x good IH]; intros i H.
  - cbn [app length]. now rewrite Nat.add_0_r.
  - cbn [app length validateItems] in *.
    destruct (Any.not (Any.id x) || Any.notString (Any.id x)
              || Any.trimIsEmpty (Any.id x)); [discriminate H|].
    destruct (Any.not (Any.content x) || Any.notString (Any.content x)
              || Any.trimIsEmpty (Any.content x)); [discriminate H|].
    destruct (negb (existsb (Any.isStr (Any.status x))
                      ["pending"; "in_progress"; "completed"])); [discriminate H|].
    rewrite <- Nat.add_succ_comm. now apply IH.
Qed.

(** X16. The index in an item message is the 0-based position of the first
    item that fails a check, whatever follows it and whatever the list as a
    whole is like: when the loop has nothing to say about the items before
    it, a bad id at that position is reported with that position, else a bad
    content, else a bad status. *)
Theorem first_bad_item_reported
    (schemaValidate : Any.TodoWriteParams -> option string)
    (good rest : list Any.TodoItem) (bad : Any.TodoItem) :
  schemaValidate (Any.mkParams (Any.Array (good ++ bad :: rest))) = None ->
  validateItems 0 good = None ->
  validateItems 0 [bad] <> None ->
  validateToolParams schemaValidate (Any.mkParams (Any.Array (good ++ bad :: rest)))
  = Some (if Any.not (Any.id bad) || Any.notString (Any.id bad)
             || Any.trimIsEmpty (Any.id bad)
          then idMessage (length good)
          else if Any.not (Any.content bad) || Any.notString (Any.content bad)
                  || Any.trimIsEmpty (Any.content bad)
          then contentMessage (length good)
          else statusMessage (length good)).
Proof.
  intros Hschema Hgood Hbad. unfold validateToolParams. rewrite Hschema.
  cbn [Any.todos].
  replace (length (good ++ bad :: rest) =? 0) with false
    by (symmetry; apply Nat.eqb_neq; rewrite length_app; simpl; lia).
  rewrite (validateItems_app good (bad :: rest) 0 Hgood).
  cbn [Nat.add validateItems] in *.
  destruct (Any.not (Any.id bad) || Any.notString (Any.id bad)
            || Any.trimIsEmpty (Any.id bad)); [reflexivity|].
  destruct (Any.not (Any.content bad) || Any.notString (Any.content bad)
            || Any.trimIsEmpty (Any.content bad)); [reflexivity|].
  destruct (negb (existsb (Any.isStr (Any.status bad))
                    ["pending"; "in_progress"; "completed"]));
    [reflexivity|now contradiction Hbad].
Qed.

Lemma first_bad_item_reported_witness :
  validateToolParams (fun _ => None)
    (Any.mkParams (Any.Array
       ([Any.mkTodo (Any.Str "1") (Any.Str "Design") (Any.Str "completed");
         Any.mkTodo (Any.Str "2") (Any.Str "Build") (Any.Str "pending")]
        ++ Any.mkTodo (Any.Str "3") (Any.Str "Ship") (Any.Str "started")
           :: [Any.mkTodo Any.Null (Any.Str "Later") (Any.Str "pending")])))
  = Some (statusMessage 2).
Proof.
  exact (first_bad_item_reported (fun _ => None)
           [Any.mkTodo (Any.Str "1") (Any.Str "Design") (Any.Str "completed");
            Any.mkTodo (Any.Str "2") (Any.Str "Build") (Any.Str "pending")]
           [Any.mkTodo Any.Null (Any.Str "Later") (Any.Str "pending")]
           (Any.mkTodo (Any.Str "3") (Any.Str "Ship") (Any.Str "started"))
           eq_refl eq_refl ltac:(discriminate)).
Defined.

(** * execute on run-time values *)

(** A lookup does not depend on the order of the members when no key
    occurs twice. *)
Lemma get_Permutation (o o' : Dyn.Object) (key : string) :
  Permutation o o' -> NoDup (List.map fst o) -> Dyn.get o key = Dyn.get o' key.
Proof.
  induction 1 as [|[k v] o o' Hp IH|[k1 v1] [k2 v2] o|o o' o'' Hp1 IH1 Hp2 IH2];
    intros Hnd.
  - reflexivity.
  - cbn [Dyn.get]. cbn [List.map fst] in Hnd. apply NoDup_cons in Hnd as [_ Hnd].
    now rewrite IH.
  - cbn [Dyn.get]. cbn [List.map fst] in Hnd.
    apply NoDup_cons in Hnd as [Hnotin _].
    destruct (String.eqb_spec k2 key) as [->|]; [|reflexivity].
    destruct (String.eqb_spec k1 key) as [->|]; [|reflexivity].
    exfalso. apply Hnotin. now left.
  - rewrite IH1 by exact Hnd. apply IH2.
    assert (Hmap : Permutation (List.map fst o) (List.map fst o'))
      by now apply Permutation_map.
    now rewrite <- Hmap.
Qed.

(** An object that holds a typed item reads as that item. *)
Lemma holds_get (o : Dyn.Object) (t : TodoItem) :
  holds o t ->
  Dyn.get o "id" = Some (id t)
  /\ Dyn.get o "content" = Some (content t)
  /\ Dyn.get o "status" = Some (statusName (status t)).
Proof.
  intros H.
  assert (Hnd : NoDup (List.map fst o)).
  { assert (Hmap : Permutation (List.map fst o) (List.map fst (members t)))
      by now apply Permutation_map.
    rewrite Hmap. refine (bool_decide_unpack _ _). vm_compute. exact I. }
  repeat split; rewrite (get_Permutation o (members t) _ H Hnd); reflexivity.
Qed.

Lemma statusName_eqb (a b : Status) :
  String.eqb (statusName a) (statusName b) = Status_eqb a b.
Proof. destruct a, b; reflexivity. Qed.

Section OnTyped.

Variable typeErrorMessage : Dyn.TypeError -> string.

Lemma hasStatus_holds (o : Dyn.Object) (t : TodoItem) (s : Status) :
  holds o t ->
  Dyn.hasStatus typeErrorMessage (statusName s) (Dyn.Obj o)
  = Normal (Status_eqb (status t) s).
Proof.
  intros H. destruct (holds_get o t H) as (_ & _ & Hs).
  unfold Dyn.hasStatus, Dyn.prop, Dyn.bindC. rewrite Hs. cbn [Dyn.same].
  now rewrite statusName_eqb.
Qed.

Lemma completesPrior_holds (p o : Dyn.Object) (prior t : TodoItem) :
  holds p prior -> holds o t ->
  Dyn.completesPrior typeErrorMessage p (Dyn.Obj o)
  = Normal (String.eqb (id t) (id prior) && Status_eqb (status t) completed).
Proof.
  intros Hp Ho. destruct (holds_get p prior Hp) as (Hpi & _ & _).
  destruct (holds_get o t Ho) as (Hi & _ & _).
  unfold Dyn.completesPrior. cbn [Dyn.prop Dyn.bindC]. rewrite Hi, Hpi.
  cbn [Dyn.same]. destruct (String.eqb (id t) (id prior)); [|reflexivity].
  apply (hasStatus_holds o t completed Ho).
Qed.

(** On objects that hold typed items, [find] finds the object of the item
    the typed [find] finds. *)
Lemma find_holds (callback : Dyn.Element -> Completion bool) (p : TodoItem -> bool)
    (objs : list Dyn.Object) (l : list TodoItem) :
  (forall o t, holds o t -> callback (Dyn.Obj o) = Normal (p t)) ->
  Forall2 holds objs l ->
  match List.find p l with
  | Some t => exists o, Dyn.find callback (List.map Dyn.Obj objs) = Normal (Some (Dyn.Obj o))
                        /\ holds o t
  | None => Dyn.find callback (List.map Dyn.Obj objs) = Normal None
  end.
Proof.
  intros Hcb Hall. induction Hall as [|o t objs l Hot Hall IH]; [reflexivity|].
  cbn [List.map Dyn.find List.find]. rewrite (Hcb o t Hot). cbn [Dyn.bindC].
  destruct (p t); [|exact IH]. now exists o.
Qed.

Lemma filter_holds (callback : Dyn.Element -> Completion bool) (p : TodoItem -> bool)
    (objs : list Dyn.Object) (l : list TodoItem) :
  (forall o t, holds o t -> callback (Dyn.Obj o) = Normal (p t)) ->
  Forall2 holds objs l ->
  exists kept, Dyn.filter callback (List.map Dyn.Obj objs) = Normal kept
               /\ length kept = length (List.filter p l).
Proof.
  intros Hcb Hall. induction Hall as [|o t objs l Hot Hall (kept & IH & Hlen)].
  - now exists [].
  - cbn [List.map Dyn.filter List.filter]. rewrite (Hcb o t Hot), IH.
    cbn [Dyn.bindC]. destruct (p t).
    + exists (Dyn.Obj o :: kept). split; [reflexivity|]. simpl. now rewrite Hlen.
    + now exists kept.
Qed.

Lemma displayStep_holds (m : option string) (n : nat) (display : string)
    (o : Dyn.Object) (t : TodoItem) (index : nat) :
  holds o t ->
  Dyn.displayStep typeErrorMessage (markerOf m) n display (Dyn.Obj o) index
  = Normal (displayStep m n display t index).
Proof.
  intros H. destruct (holds_get o t H) as (Hi & Hc & Hs).
  unfold Dyn.displayStep, displayStep, statusIcon, styledContent.
  cbn [Dyn.prop Dyn.bindC]. rewrite Hi, Hc, Hs. cbn [Dyn.toString].
  assert (Hm : Dyn.isMarker (Some (id t)) (markerOf m) = isRecent (id t) m)
    by (now destruct m).
  rewrite Hm. destruct (status t); reflexivity.
Qed.

Lemma forEach_holds (m : option string) (n : nat) (objs : list Dyn.Object)
    (l : list TodoItem) (index : nat) (display : string) :
  Forall2 holds objs l ->
  Dyn.forEach (Dyn.displayStep typeErrorMessage (markerOf m) n)
    (List.map Dyn.Obj objs) index display
  = Normal (forEach (displayStep m n) l index display).
Proof.
  intros Hall. revert index display.
  induction Hall as [|o t objs l Hot Hall IH]; intros index display; [reflexivity|].
  cbn [List.map Dyn.forEach forEach]. rewrite (displayStep_holds _ _ _ o t _ Hot).
  cbn [Dyn.bindC]. apply IH.
Qed.

Lemma generateTodoDisplay_holds (m : option string) (objs : list Dyn.Object)
    (l : list TodoItem) (st : ModuleState) :
  Forall2 holds objs l -> mostRecentlyCompletedId st = m ->
  Dyn.generateTodoDisplay typeErrorMessage (Dyn.Arr (List.map Dyn.Obj objs)) (markerOf m)
  = Normal (fst (generateTodoDisplay (mkParams l) st)).
Proof.
  intros Hall Hm. unfold Dyn.generateTodoDisplay, generateTodoDisplay, bind, getRecent, ret.
  cbn [todos]. rewrite Hm, length_map, (Forall2_length _ _ _ Hall).
  destruct (length l =? 0); [reflexivity|].
  now rewrite (forEach_holds m (length l) objs l 0 _ Hall).
Qed.

Lemma generateSummary_holds (objs : list Dyn.Object) (l : list TodoItem) :
  Forall2 holds objs l ->
  Dyn.generateSummary typeErrorMessage (Dyn.Arr (List.map Dyn.Obj objs))
  = Normal (generateSummary (mkParams l)).
Proof.
  intros Hall. unfold Dyn.generateSummary, Dyn.todosCount, generateSummary. cbn [todos].
  destruct (filter_holds (Dyn.hasStatus typeErrorMessage "completed")
              (fun t => Status_eqb (status t) completed) objs l
              (fun o t H => hasStatus_holds o t completed H) Hall) as (k1 & Hk1 & Hl1).
  destruct (filter_holds (Dyn.hasStatus typeErrorMessage "in_progress")
              (fun t => Status_eqb (status t) in_progress) objs l
              (fun o t H => hasStatus_holds o t in_progress H) Hall) as (k2 & Hk2 & Hl2).
  destruct (filter_holds (Dyn.hasStatus typeErrorMessage "pending")
              (fun t => Status_eqb (status t) pending) objs l
              (fun o t H => hasStatus_holds o t pending H) Hall) as (k3 & Hk3 & Hl3).
  cbn [statusName] in Hk1, Hk2, Hk3. rewrite Hk1, Hk2, Hk3. cbn [Dyn.bindC].
  now rewrite Hl1, Hl2, Hl3, length_map, (Forall2_length _ _ _ Hall).
Qed.

(** The store update on objects that hold typed items is the typed one. *)
Lemma updateStore_holds (objs stored : list Dyn.Object) (l cur : list TodoItem)
    (m : option string) :
  Forall2 holds objs l -> Forall2 holds stored cur ->
  Dyn.updateStore typeErrorMessage (Dyn.Arr (List.map Dyn.Obj objs)) (stateOf stored m)
  = (Normal tt,
     stateOf objs (mostRecentlyCompletedId (stateAfter (mkParams l) (mkState cur m)))).
Proof.
  intros Hobjs Hstored. rewrite execute_marker. unfold priorInProgress.
  cbn [currentTodos todos]. unfold Dyn.updateStore, stateOf.
  cbn [Dyn.currentTodos Dyn.mostRecentlyCompletedId].
  pose proof (find_holds (Dyn.hasStatus typeErrorMessage "in_progress")
                (fun t => Status_eqb (status t) in_progress) stored cur
                (fun o t H => hasStatus_holds o t in_progress H) Hstored) as Hfind.
  destruct (List.find _ cur) as [prior|].
  - destruct Hfind as (p & -> & Hp). cbn [Dyn.todosFind].
    pose proof (find_holds (Dyn.completesPrior typeErrorMessage p)
                  (fun t => String.eqb (id t) (id prior)
                            && Status_eqb (status t) completed) objs l
                  (fun o t H => completesPrior_holds p o prior t Hp H) Hobjs) as Hnow.
    destruct (List.find _ l) as [now|].
    + destruct Hnow as (o & -> & Ho). destruct (holds_get o now Ho) as (-> & _ & _).
      reflexivity.
    + rewrite Hnow. reflexivity.
  - rewrite Hfind. reflexivity.
Qed.

End OnTyped.

(** C10. On a list of well-typed items, each an object holding a text id, a
    text content and one of the three statuses, in whatever key order, and
    with such items stored, no step of the [try] block throws: the block
    completes normally with the payload that begins [success: true], echoes
    the items and carries the summary, with the display and the state of the
    typed run; [execute] returns that result and never the failure one. *)
Theorem execute_succeeds_on_typed_items
    (typeErrorMessage : Dyn.TypeError -> string)
    (objs stored : list Dyn.Object) (l cur : list TodoItem) (m : option string) :
  Forall2 holds objs l -> Forall2 holds stored cur ->
  let result :=
    {| llmContent :=
         Js.stringify
           (Js.JObject
              [("success", Js.JBool true);
               ("message", Js.JString "Todo list updated successfully");
               ("todos", Js.JArray (List.map Dyn.objectJson objs));
               ("summary", Js.JString (generateSummary (mkParams l)))]);
       returnDisplay := returnDisplay (fst (execute (mkParams l) (mkState cur m))) |} in
  let st' :=
    stateOf objs (mostRecentlyCompletedId (stateAfter (mkParams l) (mkState cur m))) in
  Dyn.tryBlock typeErrorMessage (Dyn.Arr (List.map Dyn.Obj objs)) (stateOf stored m)
  = (Normal result, st')
  /\ Dyn.execute typeErrorMessage (Dyn.Arr (List.map Dyn.Obj objs)) (stateOf stored m)
     = (result, st').
Proof.
  intros Hobjs Hstored result st'.
  assert (Htry : Dyn.tryBlock typeErrorMessage (Dyn.Arr (List.map Dyn.Obj objs))
                   (stateOf stored m) = (Normal result, st')).
  { unfold Dyn.tryBlock.
    rewrite (updateStore_holds typeErrorMessage objs stored l cur m Hobjs Hstored).
    fold st'. f_equal. unfold st' at 1, stateOf. cbn [Dyn.mostRecentlyCompletedId].
    rewrite (generateTodoDisplay_holds typeErrorMessage _ objs l
               (stateAfter (mkParams l) (mkState cur m)) Hobjs eq_refl).
    rewrite (generateSummary_holds typeErrorMessage objs l Hobjs).
    cbn [Dyn.bindC]. unfold result, Dyn.successPayload.
    rewrite List.map_map. cbn [Dyn.elementJson]. now rewrite execute_display. }
  split; [exact Htry|]. unfold Dyn.execute. now rewrite Htry.
Qed.

(** Two items with their keys in different orders, and an item in progress
    stored. *)
Lemma execute_succeeds_on_typed_items_witness :
  Dyn.execute (fun _ => "TypeError")
    (Dyn.Arr [Dyn.Obj [("content", "Write spec"); ("status", "completed"); ("id", "t1")];
              Dyn.Obj [("id", "t2"); ("content", "Review"); ("status", "pending")]])
    (Dyn.mkState [Dyn.Obj [("status", "in_progress"); ("id", "t1"); ("content", "Write spec")]]
       Dyn.MNull)
  = ({| llmContent :=
          Js.stringify
            (Js.JObject
               [("success", Js.JBool true);
                ("message", Js.JString "Todo list updated successfully");
                ("todos",
                 Js.JArray
                   [Js.JObject [("content", Js.JString "Write spec");
                                ("status", Js.JString "completed");
                                ("id", Js.JString "t1")];
                    Js.JObject [("id", Js.JString "t2");
                                ("content", Js.JString "Review");
                                ("status", Js.JString "pending")]]);
                ("summary",
                 Js.JString "2 total tasks: 1 completed, 0 in progress, 1 pending")]);
        returnDisplay :=
          returnDisplay
            (fst (execute (mkParams [mkTodo "t1" "Write spec" completed;
                                     mkTodo "t2" "Review" pending])
                    (mkState [mkTodo "t1" "Write spec" in_progress] None))) |},
     Dyn.mkState
       [Dyn.Obj [("content", "Write spec"); ("status", "completed"); ("id", "t1")];
        Dyn.Obj [("id", "t2"); ("content", "Review"); ("status", "pending")]]
       (Dyn.MValue (Some "t1"))).
Proof.
  refine (proj2 (execute_succeeds_on_typed_items (fun _ => "TypeError")
                   [[("content", "Write spec"); ("status", "completed"); ("id", "t1")];
                    [("id", "t2"); ("content", "Review"); ("status", "pending")]]
                   [[("status", "in_progress"); ("id", "t1"); ("content", "Write spec")]]
                   [mkTodo "t1" "Write spec" completed; mkTodo "t2" "Review" pending]
                   [mkTodo "t1" "Write spec" in_progress] None _ _)).
  - repeat constructor.
    unfold holds, members. cbn [id content status statusName].
    apply Permutation_sym, (Permutation_cons_append [_; _]).
  - repeat constructor.
    unfold holds, members. cbn [id content status statusName].
    apply (Permutation_cons_append [_; _]).
Defined.

(** The [catch] branch is taken when the values are not of the type: with
    [todos] undefined and nothing in progress the spread throws, after the
    marker has been reset; with a [null] element the display throws, after
    the list has been stored. *)
Example execute_throws_on_ill_typed :
  Dyn.execute
    (fun e => match e with Dyn.NotIterable => "not iterable" | _ => "other" end)
    Dyn.NullishTodos (Dyn.mkState [] (Dyn.MValue (Some "a")))
  = (catchBlock "not iterable", Dyn.mkState [] Dyn.MNull)
  /\ Dyn.execute
       (fun e => match e with Dyn.ReadOfNullish k => "read of " ++ k | _ => "other" end)
       (Dyn.Arr [Dyn.Nullish]) (Dyn.mkState [] Dyn.MNull)
     = (catchBlock "read of status", Dyn.mkState [Dyn.Nullish] Dyn.MNull).
Proof. split; reflexivity. Qed.

(** The stored items have to be of the type too: once a [null] element has
    been stored, the first [find] of the next call throws on it, whatever
    the new list is, and the store stays as it is. *)
Example execute_throws_on_ill_typed_store :
  Dyn.execute
    (fun e => match e with Dyn.ReadOfNullish k => "read of " ++ k | _ => "other" end)
    (Dyn.Arr [Dyn.Obj (members (mkTodo "a" "A" pending))])
    (Dyn.mkState [Dyn.Nullish] Dyn.MNull)
  = (catchBlock "read of status", Dyn.mkState [Dyn.Nullish] Dyn.MNull).
Proof. reflexivity. Qed.

(** * The empty array and the schema check *)

(** C6.  The schema check comes first (lines 396-402) and its schema asks
    for at least one item (line 57): on [todos = []] the validator returns
    the text of the schema check, whatever it is, the call is rejected with
    that text and the session state is exactly what it was.  The message of
    line 406 is not the one returned. *)
Theorem empty_todos_rejected_by_schema
    (schemaValidate : Any.TodoWriteParams -> option string)
    (errors : string) (st : ModuleState) :
  schemaValidate (Any.mkParams (Any.Array [])) = Some errors ->
  validateToolParams schemaValidate (Any.mkParams (Any.Array [])) = Some errors
  /\ invoke schemaValidate (mkParams []) st = (Rejected errors, st).
Proof.
  intros Hschema.
  assert (Hv : validateToolParams schemaValidate (Any.mkParams (Any.Array []))
               = Some errors).
  { unfold validateToolParams. now rewrite Hschema. }
  split; [exact Hv|]. unfold invoke.
  change (eraseParams (mkParams [])) with (Any.mkParams (Any.Array [])).
  now rewrite Hv.
Qed.

(** With the schema check that words the [minItems] violation, the message
    for [todos = []] does not contain "must be a non-empty array". *)
Lemma empty_todos_rejected_by_schema_witness :
  (validateToolParams schemaMinItems (Any.mkParams (Any.Array []))
   = Some "params/todos must NOT have fewer than 1 items"
   /\ invoke schemaMinItems (mkParams [])
        (mkState [mkTodo "a" "A" in_progress] (Some "z"))
      = (Rejected "params/todos must NOT have fewer than 1 items",
         mkState [mkTodo "a" "A" in_progress] (Some "z")))
  /\ Js.includes "params/todos must NOT have fewer than 1 items"
       "must be a non-empty array" = false.
Proof.
  split; [|reflexivity].
  exact (empty_todos_rejected_by_schema schemaMinItems _ _ eq_refl).
Defined.

(** * The same candidate twice *)

(** C7. For every candidate the validator has accepted, which is what
    [execute] is given, and every starting state: running [execute] twice in
    a row with that candidate leaves the marker at none after the second
    call. *)
Theorem replace_twice_marker_none
    (schemaValidate : Any.TodoWriteParams -> option string)
    (params : TodoWriteParams) (st : ModuleState) :
  validateToolParams schemaValidate (eraseParams params) = None ->
  mostRecentlyCompletedId (stateAfter params (stateAfter params st)) = None.
Proof.
  intros H.
  assert (Hs : schemaValidate (eraseParams params) = None).
  { now apply validate_none_iff in H as [Hs _]. }
  apply (accepted_iff_wellFormed schemaValidate params Hs) in H
    as (_ & _ & _ & Hnd).
  now apply execute_twice_marker_none.
Qed.

Lemma replace_twice_marker_none_witness :
  mostRecentlyCompletedId
    (stateAfter (mkParams [mkTodo "a" "A" in_progress; mkTodo "b" "B" completed])
       (stateAfter (mkParams [mkTodo "a" "A" in_progress; mkTodo "b" "B" completed])
          (mkState [mkTodo "b" "B" in_progress] (Some "b")))) = None.
Proof.
  exact (replace_twice_marker_none (fun _ => None)
           (mkParams [mkTodo "a" "A" in_progress; mkTodo "b" "B" completed])
           (mkState [mkTodo "b" "B" in_progress] (Some "b")) eq_refl).
Defined.
